(** * Workspace lifecycle reconciliation (ws-manager-mk2 controllers)

    A shallow embedding of
    [components/ws-manager-mk2/controllers/timeout_controller.go]
    (the timeout reconciler, the status reconciler [updateWorkspaceStatus],
    the failure extractor and the timeout policy [isWorkspaceTimedOut])
    together with the properties that the specification states about them.

    Conventions.
    - Go [string] and [[]byte] are both byte sequences and are modelled by
      [string]; the conversions [[]byte(s)] and [string(b)] are the identity.
    - Go [int], [int32], [int64] and [time.Duration] are modelled by [Z];
      64-bit wrap-around is written out where the source can overflow.
    - [time.Time] is an instant in nanoseconds; [time.Now()] and
      [metav1.Now()] are passed in as the argument [now].
    - Logging has no part in the results and is left out; an error result
      that is nil on every path is left out as well. *)

From Stdlib Require Import ZArith String Ascii List Bool Lia DecimalString.
Import ListNotations.

Open Scope string_scope.
Open Scope Z_scope.

(** ** Strings *)

Module Str.

(** [s] occurs in [t] as a contiguous run of bytes. *)
Definition contains (s t : string) : Prop :=
  exists pre post, t = pre ++ s ++ post.

(** [fmt.Sprintf("%d", z)]. *)
Definition decimal (z : Z) : string :=
  NilZero.string_of_int (Z.to_int z).

(** [fmt.Sprintf("%02d", z)]: zero padding up to two columns, the sign
    counting as a column. *)
Definition pad2 (z : Z) : string :=
  let s := decimal z in
  if (String.length s <? 2)%nat then "0" ++ s else s.

(** [len(s)] as a Go [int]. *)
Definition len (s : string) : Z := Z.of_nat (String.length s).

(** [s[lo:hi]] for [0 <= lo <= hi <= len(s)]. *)
Definition slice (s : string) (lo hi : Z) : string :=
  substring (Z.to_nat lo) (Z.to_nat (hi - lo)) s.

(** [bytes.LastIndex(s, sep)]: the index of the last occurrence of [sep]
    in [s], or [-1].  [lastIndexFrom] walks [s] from the left, [i] being
    the index of the current position and [acc] the last match so far. *)
Fixpoint lastIndexFrom (s sep : string) (i acc : Z) : Z :=
  match s with
  | EmptyString => if prefix sep EmptyString then i else acc
  | String _ s' =>
      lastIndexFrom s' sep (i + 1) (if prefix sep s then i else acc)
  end.

Definition LastIndex (s sep : string) : Z := lastIndexFrom s sep 0 (-1).

(** An ASCII letter in lower case; other bytes as they are. *)
Definition lower (c : ascii) : ascii :=
  let n := nat_of_ascii c in
  if ((65 <=? n) && (n <=? 90))%nat then ascii_of_nat (n + 32) else c.

End Str.

(** ** Time: [time.Duration] and [time.Time] *)

Module GoTime.

Definition Duration := Z.
Definition Time := Z.

Definition minDuration : Duration := - 2 ^ 63.
Definition maxDuration : Duration := 2 ^ 63 - 1.

Definition Nanosecond : Duration := 1.
Definition Second : Duration := 1000000000.
Definition Minute : Duration := 60 * Second.
Definition Hour : Duration := 60 * Minute.

(** Two's-complement wrap-around of a 64-bit signed integer. *)
Definition wrap64 (z : Z) : Z := (z + 2 ^ 63) mod 2 ^ 64 - 2 ^ 63.

Definition inRange (d : Z) : Prop := minDuration <= d <= maxDuration.

(** [t.Sub(u)]: the difference, saturated to the range of a [Duration]. *)
Definition Sub (t u : Time) : Duration :=
  Z.max minDuration (Z.min maxDuration (t - u)).

(** [time.Since(t)], with the clock reading [now]. *)
Definition Since (now t : Time) : Duration := Sub now t.

(** [lessThanHalf(x, y)]: [x + x < y] computed on [uint64]. *)
Definition lessThanHalf (x y : Duration) : bool :=
  (x mod 2 ^ 64 + x mod 2 ^ 64) mod 2 ^ 64 <? y mod 2 ^ 64.

(** [d.Round(m)]: [d] rounded to the nearest multiple of [m], halfway
    values away from zero, saturating on overflow. *)
Definition Round (d m : Duration) : Duration :=
  if m <=? 0 then d
  else
    let r := Z.rem d m in
    if d <? 0 then
      let r := wrap64 (- r) in
      if lessThanHalf r m then wrap64 (d + r)
      else
        let d1 := wrap64 (wrap64 (d - m) + r) in
        if d1 <? d then d1 else minDuration
    else
      if lessThanHalf r m then wrap64 (d - r)
      else
        let d1 := wrap64 (wrap64 (d + m) - r) in
        if d1 >? d then d1 else maxDuration.

End GoTime.

Import GoTime.

(** [formatDuration] (timeout_controller.go, l. 502-508). *)
Definition formatDuration (d : Duration) : string :=
  let d := Round d Minute in
  let h := Z.quot d Hour in
  let d := wrap64 (d - wrap64 (h * Hour)) in
  let m := Z.quot d Minute in
  Str.pad2 h ++ "h" ++ Str.pad2 m ++ "m".

(** ** Kubernetes and workspace objects *)

(** [metav1.ConditionStatus]. *)
Inductive ConditionStatus := ConditionTrue | ConditionFalse | ConditionUnknown.

(** [metav1.Condition]. *)
Record Condition := {
  Type_ : string;
  Status : ConditionStatus;
  LastTransitionTime : Time;
  Reason : string;
  Message : string
}.

(** Modelled from the spec: the condition type names of [workspacev1]
    (crd/v1), which are declared outside the sources at hand.  In
    [metav1.Condition] the type is a plain string. *)
Definition WorkspaceConditionDeployed : string := "Deployed".
Definition WorkspaceConditionFailed : string := "Failed".
Definition WorkspaceConditionTimeout : string := "Timeout".
Definition WorkspaceConditionUserActivity : string := "UserActivity".
Definition WorkspaceConditionClosed : string := "Closed".
Definition WorkspaceConditionBackupComplete : string := "BackupComplete".
Definition WorkspaceConditionBackupFailure : string := "BackupFailure".
Definition WorkspaceConditionContentReady : string := "ContentReady".

(** Modelled from the spec: [workspacev1.WorkspacePhase], declared outside
    the sources at hand.  [PhaseUnset] is the empty string, the zero value
    of the Go type. *)
Inductive WorkspacePhase :=
| PhaseUnset
| WorkspacePhasePending
| WorkspacePhaseCreating
| WorkspacePhaseInitializing
| WorkspacePhaseRunning
| WorkspacePhaseStopping
| WorkspacePhaseStopped
| WorkspacePhaseUnknown.

(** [corev1.PodPhase]; [PodPhaseUnset] stands for the zero value. *)
Inductive PodPhase :=
| PodPhaseUnset | PodPending | PodRunning | PodSucceeded | PodFailed | PodUnknown.

Record ContainerStateWaiting := {
  WaitingReason : string;
  WaitingMessage : string
}.

Record ContainerStateTerminated := {
  ExitCode : Z;
  TerminatedReason : string;
  TerminatedMessage : string
}.

(** [corev1.ContainerState]: each member is a pointer that may be nil. *)
Record ContainerState := {
  Waiting : option ContainerStateWaiting;
  Running : option unit;
  Terminated : option ContainerStateTerminated
}.

Record ContainerStatus := {
  ContainerName : string;
  Ready : bool;
  State : ContainerState;
  LastTerminationState : ContainerState
}.

Record PodStatus := {
  PodPhase_ : PodPhase;
  PodReason : string;
  PodMessage : string;
  HostIP : string;
  PodIP : string;
  ContainerStatuses : list ContainerStatus
}.

Record Pod := {
  PodName : string;
  DeletionTimestamp : option Time;
  Finalizers : list string;
  SpecNodeName : string;
  PodStatus_ : PodStatus
}.

Record ObjectMeta := {
  Name : string;
  Namespace : string;
  CreationTimestamp : Time
}.

(** Modelled from the spec: the records of [workspacev1] (crd/v1), declared
    outside the sources at hand, with the fields that the source reads and
    writes.  In [WorkspaceSpec], [TimeoutTime] is [Timeout.Time], the
    optional custom timeout, and [WorkspaceID] stands for the ownership
    part. *)
Record WorkspaceSpec := {
  WorkspaceID : string;
  TimeoutTime : option Duration
}.

Record WorkspaceRuntimeStatus := {
  RtNodeName : string;
  RtHostIP : string;
  RtPodIP : string;
  RtPodName : string
}.

Record WorkspaceStatus := {
  Phase : WorkspacePhase;
  Conditions : list Condition;
  Headless : bool;
  Runtime : option WorkspaceRuntimeStatus
}.

Record Workspace := {
  Meta : ObjectMeta;
  Spec : WorkspaceSpec;
  WsStatus : WorkspaceStatus
}.

(** Modelled from the spec: [config.WorkspaceTimeoutConfiguration],
    declared outside the sources at hand. *)
Record WorkspaceTimeoutConfiguration := {
  TotalStartup : Duration;
  Initialization : Duration;
  RegularWorkspace : Duration;
  MaxLifetime : Duration;
  HeadlessWorkspace : Duration;
  AfterClose : Duration;
  ContentFinalization : Duration;
  Stopping : Duration
}.

(** Field updates ([workspace.Status.Phase = ...] and the like). *)
Definition setStatus (w : Workspace) (s : WorkspaceStatus) : Workspace :=
  {| Meta := Meta w; Spec := Spec w; WsStatus := s |}.

Definition setPhase (w : Workspace) (p : WorkspacePhase) : Workspace :=
  setStatus w {| Phase := p; Conditions := Conditions (WsStatus w);
                 Headless := Headless (WsStatus w);
                 Runtime := Runtime (WsStatus w) |}.

Definition setConditions (w : Workspace) (cs : list Condition) : Workspace :=
  setStatus w {| Phase := Phase (WsStatus w); Conditions := cs;
                 Headless := Headless (WsStatus w);
                 Runtime := Runtime (WsStatus w) |}.

Definition setRuntime (w : Workspace) (r : option WorkspaceRuntimeStatus)
  : Workspace :=
  setStatus w {| Phase := Phase (WsStatus w);
                 Conditions := Conditions (WsStatus w);
                 Headless := Headless (WsStatus w); Runtime := r |}.

(** ** The condition set *)

Definition statusEqb (a b : ConditionStatus) : bool :=
  match a, b with
  | ConditionTrue, ConditionTrue
  | ConditionFalse, ConditionFalse
  | ConditionUnknown, ConditionUnknown => true
  | _, _ => false
  end.

(** Modelled from the spec: [AddUniqueCondition], defined outside the
    sources at hand.  The condition set holds at most one condition per
    type; adding is an upsert: a condition of a type that is not yet there
    is appended; one whose type is there with the same status and message
    changes nothing (no new timestamp); otherwise the stored condition of
    that type is replaced. *)
Fixpoint AddUniqueCondition (conds : list Condition) (cond : Condition)
  : list Condition :=
  match conds with
  | [] => [cond]
  | c :: rest =>
      if (Type_ c =? Type_ cond)%string then
        if statusEqb (Status c) (Status cond)
           && (Message c =? Message cond)%string
        then c :: rest
        else cond :: rest
      else c :: AddUniqueCondition rest cond
  end.

(** Modelled from the spec: [conditionPresentAndTrue], defined outside the
    sources at hand: a condition of type [tpe] is present with status
    True. *)
Definition conditionPresentAndTrue (cond : list Condition) (tpe : string)
  : bool :=
  existsb (fun c => (Type_ c =? tpe)%string
                    && statusEqb (Status c) ConditionTrue) cond.

(** Modelled from the spec: [conditionWithStatusAndReson], defined outside
    the sources at hand: a condition of type [tpe] is present with the
    given status ([true] for True, [false] for False) and reason. *)
Definition conditionWithStatusAndReson (cond : list Condition) (tpe : string)
    (status : bool) (reason : string) : bool :=
  existsb (fun c => (Type_ c =? tpe)%string
                    && statusEqb (Status c)
                         (if status then ConditionTrue else ConditionFalse)
                    && (Reason c =? reason)%string) cond.

(** [isPodBeingDeleted] (l. 395-398). *)
Definition isPodBeingDeleted (pod : Pod) : bool :=
  match DeletionTimestamp pod with Some _ => true | None => false end.

(** ** The timeout policy (l. 400-508) *)

Definition activity := string.

Definition activityInit : activity := "initialization".
Definition activityStartup : activity := "startup".
Definition activityCreatingContainers : activity := "creating containers".
Definition activityPullingImages : activity := "pulling images".
Definition activityRunningHeadless : activity := "running the headless workspace".
Definition activityNone : activity := "period of inactivity".
Definition activityMaxLifetime : activity := "maximum lifetime".
Definition activityClosed : activity := "after being closed".
Definition activityInterrupted : activity := "workspace interruption".
Definition activityStopping : activity := "stopping".
Definition activityBackup : activity := "backup".

(** The closure [decide] of [isWorkspaceTimedOut] (l. 422-430).  Its error
    result is nil on every path and is left out, here and in
    [isWorkspaceTimedOut]. *)
Definition decide (now : Time) (start : Time) (timeout : Duration)
    (act : activity) : string :=
  let td := timeout in
  let inactivity := Since now start in
  if inactivity <? td then ""
  else "workspace timed out after " ++ act ++ " ("
       ++ formatDuration inactivity ++ ") took longer than "
       ++ formatDuration td.

(** [getWorkspaceActivity] (l. 493-500). *)
Fixpoint conditionActivity (conds : list Condition) : option Time :=
  match conds with
  | [] => None
  | c :: rest =>
      if (Type_ c =? WorkspaceConditionUserActivity)%string
      then Some (LastTransitionTime c)
      else conditionActivity rest
  end.

Definition getWorkspaceActivity (ws : Workspace) : option Time :=
  conditionActivity (Conditions (WsStatus ws)).

(** [isWorkspaceTimedOut] (l. 418-491). *)
Definition isWorkspaceTimedOut (now : Time) (ws : Workspace) (pod : Pod)
    (timeouts : WorkspaceTimeoutConfiguration) : string :=
  let phase := Phase (WsStatus ws) in
  let start := CreationTimestamp (Meta ws) in
  let lastActivity := getWorkspaceActivity ws in
  let isClosed :=
    conditionPresentAndTrue (Conditions (WsStatus ws))
                            WorkspaceConditionClosed in
  match phase with
  | WorkspacePhasePending =>
      decide now start (Initialization timeouts) activityInit
  | WorkspacePhaseInitializing =>
      decide now start (TotalStartup timeouts) activityStartup
  | WorkspacePhaseCreating =>
      decide now start (TotalStartup timeouts) activityCreatingContainers
  | WorkspacePhaseRunning =>
      let msg := decide now start (MaxLifetime timeouts) activityMaxLifetime in
      if negb (msg =? "")%string then msg
      else
        (* [inl r]: the branch returns [r]; [inr (timeout, lastActivity,
           activity)]: control reaches the custom-timeout override. *)
        match
          (if Headless (WsStatus ws) then
             inr (HeadlessWorkspace timeouts, start, activityRunningHeadless)
           else
             match lastActivity with
             | None =>
                 inl (decide now start (TotalStartup timeouts) activityNone)
             | Some last =>
                 if isClosed then
                   inl (decide now last (AfterClose timeouts) activityClosed)
                 else inr (RegularWorkspace timeouts, last, activityNone)
             end)
        with
        | inl r => r
        | inr (timeout, last, act) =>
            let timeout :=
              match TimeoutTime (Spec ws) with
              | Some ctv => ctv
              | None => timeout
              end in
            decide now last timeout act
        end
  | WorkspacePhaseStopping =>
      (* [isPodBeingDeleted(pod)] is [DeletionTimestamp != nil] *)
      match DeletionTimestamp pod with
      | Some deleted =>
          if conditionPresentAndTrue (Conditions (WsStatus ws))
                                     WorkspaceConditionBackupComplete
          then decide now deleted (ContentFinalization timeouts) activityBackup
          else decide now deleted (Stopping timeouts) activityStopping
      | None => ""
      end
  | _ => ""
  end.

(** ** The failure extractor (l. 283-392) *)

Definition containerKilledExitCode : Z := 137.
Definition containerUnknownExitCode : Z := 255.

Definition newline : string := String "010" EmptyString.

(** The anonymous struct [msg] of [extractFailureFromLogs]. *)
Record LogMsg := {
  MsgError : string;
  MsgMessage : string
}.

Definition emptyMsg : LogMsg := {| MsgError := ""; MsgMessage := "" |}.

(** [json.Unmarshal(line, &msg)]: the record after the call, and whether the
    call succeeded ([err == nil]). *)
Definition Unmarshaler := string -> LogMsg -> LogMsg * bool.

(** How the loop of [extractFailureFromLogs] is left. *)
Inductive ScanResult :=
| Returned (s : string)   (* a [return] inside the loop *)
| Fallthrough             (* the loop condition [idx > 0] failed *)
| OutOfFuel.

Section Extractor.

Variable unmarshal : Unmarshaler.

(** The loop of [extractFailureFromLogs] (l. 368-389), entered with the
    current [idx] and the current contents of [msg]; every iteration
    lowers [idx] and uses one unit of [fuel]. *)
Fixpoint scanLog (fuel : nat) (logs : string) (idx : Z) (msg : LogMsg)
  : ScanResult :=
  match fuel with
  | O => OutOfFuel
  | S fuel' =>
      if idx >? 0 then
        let nidx := Str.LastIndex (Str.slice logs 0 idx) newline in
        let nidx := if nidx <? 0 then 0 else nidx in
        let line := Str.slice logs nidx idx in
        let (msg', ok) := unmarshal line msg in
        if negb ok then scanLog fuel' logs nidx msg'
        else if (MsgMessage msg' =? "")%string then
               scanLog fuel' logs nidx msg'
        else if (MsgError msg' =? "")%string then
               Returned (MsgMessage msg')
        else Returned (MsgMessage msg' ++ ": " ++ MsgError msg')
      else Fallthrough
  end.

(** [extractFailureFromLogs] (l. 360-392).  The fuel covers every
    iteration ([scanLog_fuel] below), so the last branch is never taken. *)
Definition extractFailureFromLogs (logs : string) : string :=
  match scanLog (S (String.length logs)) logs
                (Str.LastIndex logs newline) emptyMsg with
  | Returned s => s
  | Fallthrough => logs
  | OutOfFuel => logs
  end.

(** One iteration of the loop over the container statuses in
    [extractFailure] (l. 293-353): [Some r] when the iteration returns
    [r], [None] when it runs to its end. *)
Definition containerFailure (headless : bool) (pod : Pod)
    (cs : ContainerStatus) : option (string * option WorkspacePhase) :=
  let imagePull :=
    match Waiting (State cs) with
    | Some w =>
        if (WaitingReason w =? "ImagePullBackOff")%string
           || (WaitingReason w =? "ErrImagePull")%string
        then
          let res := if isPodBeingDeleted pod then None
                     else Some WorkspacePhaseCreating in
          Some ("cannot pull image: " ++ WaitingMessage w, res)
        else None
    | None => None
    end in
  match imagePull with
  | Some r => Some r
  | None =>
      let terminationState :=
        match Terminated (State cs) with
        | Some t => Some t
        | None => Terminated (LastTerminationState cs)
        end in
      match terminationState with
      | None => None
      | Some t =>
          if negb (ExitCode t =? 0)
             && negb (TerminatedMessage t =? "")%string then
            let phase := if negb (isPodBeingDeleted pod)
                         then WorkspacePhaseRunning else PhaseUnset in
            Some (extractFailureFromLogs (TerminatedMessage t), Some phase)
          else if (TerminatedReason t =? "Error")%string then
            if negb (isPodBeingDeleted pod)
               && negb (ExitCode t =? containerKilledExitCode)
            then Some ("container " ++ ContainerName cs
                       ++ " ran with an error: exit code "
                       ++ Str.decimal (ExitCode t),
                       Some WorkspacePhaseRunning)
            else None
          else if (TerminatedReason t =? "Completed")%string
                  && negb (isPodBeingDeleted pod) then
            if headless then Some ("", None)
            else Some ("container " ++ ContainerName cs
                       ++ " completed; containers of a workspace pod are not supposed to do that",
                       None)
          else if negb (isPodBeingDeleted pod)
                  && negb (ExitCode t =? containerUnknownExitCode) then
            Some ("workspace container " ++ ContainerName cs
                  ++ " terminated for an unknown reason: ("
                  ++ TerminatedReason t ++ ") " ++ TerminatedMessage t,
                  Some WorkspacePhaseUnknown)
          else None
      end
  end.

Fixpoint containersFailure (headless : bool) (pod : Pod)
    (css : list ContainerStatus) : string * option WorkspacePhase :=
  match css with
  | [] => ("", None)
  | cs :: rest =>
      match containerFailure headless pod cs with
      | Some r => r
      | None => containersFailure headless pod rest
      end
  end.

(** [extractFailure] (l. 285-356). *)
Definition extractFailure (ws : Workspace) (pod : Pod)
  : string * option WorkspacePhase :=
  let status := PodStatus_ pod in
  if match PodPhase_ status with PodFailed => true | _ => false end
     && (negb (PodReason status =? "")%string
         || negb (PodMessage status =? "")%string)
  then (PodReason status ++ ": " ++ PodMessage status, None)
  else containersFailure (Headless (WsStatus ws)) pod
                         (ContainerStatuses status).

End Extractor.

(** ** The status reconciler (l. 139-281) *)

Definition phaseEqb (a b : WorkspacePhase) : bool :=
  match a, b with
  | PhaseUnset, PhaseUnset
  | WorkspacePhasePending, WorkspacePhasePending
  | WorkspacePhaseCreating, WorkspacePhaseCreating
  | WorkspacePhaseInitializing, WorkspacePhaseInitializing
  | WorkspacePhaseRunning, WorkspacePhaseRunning
  | WorkspacePhaseStopping, WorkspacePhaseStopping
  | WorkspacePhaseStopped, WorkspacePhaseStopped
  | WorkspacePhaseUnknown, WorkspacePhaseUnknown => true
  | _, _ => false
  end.

Definition emptyRuntime : WorkspaceRuntimeStatus :=
  {| RtNodeName := ""; RtHostIP := ""; RtPodIP := ""; RtPodName := "" |}.

(** [if field == "" && observed != "" { field = observed }]. *)
Definition fillIn (field observed : string) : string :=
  if (field =? "")%string && negb (observed =? "")%string
  then observed else field.

(** The runtime snapshot after l. 174-188. *)
Definition updateRuntime (rt : option WorkspaceRuntimeStatus) (pod : Pod)
  : WorkspaceRuntimeStatus :=
  let rt := match rt with Some r => r | None => emptyRuntime end in
  {| RtNodeName := fillIn (RtNodeName rt) (SpecNodeName pod);
     RtHostIP := fillIn (RtHostIP rt) (HostIP (PodStatus_ pod));
     RtPodIP := fillIn (RtPodIP rt) (PodIP (PodStatus_ pod));
     RtPodName := fillIn (RtPodName rt) (PodName pod) |}.

(** The condition literals of the source; [Reason] is left at its zero
    value there. *)
Definition conditionTrue (tpe : string) (now : Time) (message : string)
  : Condition :=
  {| Type_ := tpe; Status := ConditionTrue; LastTransitionTime := now;
     Reason := ""; Message := message |}.

Section StatusReconciler.

(** The name of the disposal finalizer, a constant declared outside the
    sources at hand. *)
Variable gitpodPodFinalizerName : string.
Variable unmarshal : Unmarshaler.

(** The [switch] of l. 205-278: the phase it assigns. *)
Definition podPhase (ws : Workspace) (pod : Pod) : WorkspacePhase :=
  let conds := Conditions (WsStatus ws) in
  if isPodBeingDeleted pod then
    let hasFinalizer :=
      existsb (fun f => (f =? gitpodPodFinalizerName)%string)
              (Finalizers pod) in
    if hasFinalizer then
      if conditionPresentAndTrue conds WorkspaceConditionBackupComplete
         || conditionPresentAndTrue conds WorkspaceConditionBackupFailure
         || conditionWithStatusAndReson conds WorkspaceConditionContentReady
                                        false "InitializationFailure"
      then WorkspacePhaseStopped
      else WorkspacePhaseStopping
    else WorkspacePhaseStopped
  else
    match PodPhase_ (PodStatus_ pod) with
    | PodPending =>
        let creating :=
          existsb
            (fun cs =>
               match Waiting (State cs) with
               | Some w =>
                   (WaitingReason w =? "ContainerCreating")%string
                   || (WaitingReason w =? "ImagePullBackOff")%string
                   || (WaitingReason w =? "ErrImagePull")%string
               | None => false
               end)
            (ContainerStatuses (PodStatus_ pod)) in
        if creating then WorkspacePhaseCreating else WorkspacePhasePending
    | PodRunning =>
        let ready := existsb Ready (ContainerStatuses (PodStatus_ pod)) in
        if ready then WorkspacePhaseRunning else WorkspacePhaseInitializing
    | PodSucceeded | PodFailed =>
        if Headless (WsStatus ws) then WorkspacePhaseStopping
        else WorkspacePhaseUnknown
    | PodUnknown => WorkspacePhaseUnknown
    | PodPhaseUnset => WorkspacePhaseUnknown
    end.

(** [updateWorkspaceStatus] (l. 139-281); the error result is nil on every
    path and is left out. *)
Definition updateWorkspaceStatus (now : Time) (workspace : Workspace)
    (pods : list Pod) : Workspace :=
  match pods with
  | [] =>
      let workspace :=
        if phaseEqb (Phase (WsStatus workspace)) PhaseUnset
        then setPhase workspace WorkspacePhasePending else workspace in
      if negb (phaseEqb (Phase (WsStatus workspace)) WorkspacePhasePending)
      then setPhase workspace WorkspacePhaseStopped else workspace
  | [pod] =>
      let workspace :=
        setConditions workspace
          (AddUniqueCondition (Conditions (WsStatus workspace))
             (conditionTrue WorkspaceConditionDeployed now "")) in
      let workspace :=
        setRuntime workspace
          (Some (updateRuntime (Runtime (WsStatus workspace)) pod)) in
      let (failure, phase) := extractFailure unmarshal workspace pod in
      let workspace :=
        match phase with
        | Some p => setPhase workspace p
        | None => workspace
        end in
      let workspace :=
        if negb (failure =? "")%string
           && negb (conditionPresentAndTrue
                      (Conditions (WsStatus workspace))
                      WorkspaceConditionFailed)
        then
          (* workspaces can fail only once - once there is a failed
             condition set, stick with it *)
          setConditions workspace
            (AddUniqueCondition (Conditions (WsStatus workspace))
               (conditionTrue WorkspaceConditionFailed now failure))
        else workspace in
      setPhase workspace (podPhase workspace pod)
  | _ =>
      (* This is exceptional - not sure what to do here. Probably fail
         the pod *)
      setConditions workspace
        (AddUniqueCondition (Conditions (WsStatus workspace))
           (conditionTrue WorkspaceConditionFailed now
              "multiple pods exists - this should never happen"))
  end.

End StatusReconciler.

(** ** The timeout reconciler (l. 21-98) *)

Inductive Error :=
| ErrNotFound
| ErrOther (what : string).

(** [client.IgnoreNotFound]. *)
Definition IgnoreNotFound (err : Error) : option Error :=
  match err with
  | ErrNotFound => None
  | e => Some e
  end.

Record NamespacedName := {
  ReqNamespace : string;
  ReqName : string
}.

(** [ctrl.Result]. *)
Record Result := {
  Requeue : bool;
  RequeueAfter : Duration
}.

Definition emptyResult : Result := {| Requeue := false; RequeueAfter := 0 |}.

(** The two operations of [client.Client] that [Reconcile] uses, over a
    cluster state [C]: [r.Get] and [r.Client.Status().Update]. *)
Class Client (C : Type) := {
  Get : C -> NamespacedName -> Workspace + Error;
  StatusUpdate : C -> Workspace -> C * option Error
}.

(** Modelled from the spec: [config.Configuration], declared outside the
    sources at hand, as far as the reconciler reads it. *)
Record Configuration := {
  Timeouts : WorkspaceTimeoutConfiguration;
  HeartbeatInterval : Duration
}.

Section TimeoutReconciler.

(** [wsactivity.WorkspaceActivity], the store of last-activity instants. *)
Variable WorkspaceActivity : Type.

(** [Reconcile] calls [isWorkspaceTimedOut(&workspace, timeouts, activity)],
    a variant with three parameters and an error result whose definition
    is outside the sources at hand (the one of l. 418 takes a pod).  It is
    a parameter here; it reads the clock. *)
Variable workspaceTimedOut :
  Time -> Workspace -> WorkspaceTimeoutConfiguration -> WorkspaceActivity
  -> string * option Error.

Record TimeoutReconciler := {
  Config : Configuration;
  activity_ : WorkspaceActivity;
  reconcileInterval : Duration
}.

(** [NewTimeoutReconciler] (l. 21-33); its error result is nil. *)
Definition NewTimeoutReconciler (cfg : Configuration)
    (act : WorkspaceActivity) : TimeoutReconciler :=
  let reconcileInterval := HeartbeatInterval cfg in
  let reconcileInterval := Z.quot reconcileInterval 2 in
  {| Config := cfg; activity_ := act;
     reconcileInterval := reconcileInterval |}.

Context {C : Type} `{Client C}.

(** [Reconcile] (l. 49-98) as a state transformer on the cluster: the
    result, the error and the cluster afterwards.  The deferred function
    of l. 67-69 runs on every return after the fetch. *)
Definition Reconcile (r : TimeoutReconciler) (now : Time) (cluster : C)
    (req : NamespacedName) : Result * option Error * C :=
  match Get cluster req with
  | inr err => (emptyResult, IgnoreNotFound err, cluster)
  | inl workspace =>
      let '(result, err, cluster') :=
        match workspaceTimedOut now workspace (Timeouts (Config r))
                                (activity_ r) with
        | (_, Some err) => (emptyResult, Some err, cluster)
        | (timedout, None) =>
            if (timedout =? "")%string then (emptyResult, None, cluster)
            else if conditionPresentAndTrue
                      (Conditions (WsStatus workspace))
                      WorkspaceConditionTimeout
            then (emptyResult, None, cluster)
            else
              let workspace :=
                setConditions workspace
                  (AddUniqueCondition (Conditions (WsStatus workspace))
                     (conditionTrue WorkspaceConditionTimeout now
                                    timedout)) in
              let (cluster', err) := StatusUpdate cluster workspace in
              (emptyResult, err, cluster')
        end in
      ({| Requeue := Requeue result;
          RequeueAfter := reconcileInterval r |}, err, cluster')
  end.

End TimeoutReconciler.

Arguments TimeoutReconciler WorkspaceActivity : clear implicits.
Arguments Config {WorkspaceActivity} t.
Arguments activity_ {WorkspaceActivity} t.
Arguments reconcileInterval {WorkspaceActivity} t.
Arguments NewTimeoutReconciler {WorkspaceActivity} cfg act.
Arguments Reconcile {WorkspaceActivity} workspaceTimedOut {C H} r now cluster req.

(** ** A model of [json.Unmarshal] for the record of the log scanner

    The properties of the scanner below hold for every decoder; this model
    of Go's [encoding/json] serves the concrete log texts.  It checks the
    whole input against the JSON grammar first (a syntax error leaves the
    record untouched), then stores the string members named [error] and
    [message] (names compared case-insensitively); a member of another JSON
    type is a type error that does not stop the decoding of the remaining
    members; [null] stores nothing.  Bytes above 127 inside strings are
    copied as they are (Go replaces ill-formed UTF-8 by U+FFFD). *)

Module Json.

#[local] Unset Elimination Schemes.
Inductive value :=
| Null
| Bool (b : bool)
| Number
| Str (s : string)
| Array (l : list value)
| Object (members : list (string * value)).
#[local] Set Elimination Schemes.

Definition maxNestingDepth : Z := 10000.

Definition quoteChar : ascii := "034".
Definition backslash : ascii := "092".

Definition isSpace (c : ascii) : bool :=
  (c =? " ")%char || (c =? "009")%char || (c =? "010")%char
  || (c =? "013")%char.

Fixpoint skipWs (s : string) : string :=
  match s with
  | String c r => if isSpace c then skipWs r else s
  | EmptyString => s
  end.

Definition code (c : ascii) : Z := Z.of_nat (nat_of_ascii c).
Definition byte (z : Z) : ascii := ascii_of_nat (Z.to_nat z).

Definition isDigit (c : ascii) : bool := (48 <=? code c) && (code c <=? 57).

Definition hexVal (c : ascii) : option Z :=
  let n := code c in
  if (48 <=? n) && (n <=? 57) then Some (n - 48)
  else if (97 <=? n) && (n <=? 102) then Some (n - 87)
  else if (65 <=? n) && (n <=? 70) then Some (n - 55)
  else None.

(** Four hexadecimal digits. *)
Definition hex4 (s : string) : option (Z * string) :=
  match s with
  | String a (String b (String c (String d r))) =>
      match hexVal a, hexVal b, hexVal c, hexVal d with
      | Some a, Some b, Some c, Some d =>
          Some (((a * 16 + b) * 16 + c) * 16 + d, r)
      | _, _, _, _ => None
      end
  | _ => None
  end.

(** [getu4]: a [\uXXXX] escape. *)
Definition getu4 (s : string) : option (Z * string) :=
  match s with
  | String b (String u r) =>
      if (b =? backslash)%char && (u =? "u")%char then hex4 r else None
  | _ => None
  end.

(** [utf8.EncodeRune]. *)
Definition encodeRune (r : Z) : string :=
  let cont (z : Z) := byte (Z.lor 128 (Z.land z 63)) in
  if r <? 128 then String (byte r) ""
  else if r <? 2048 then
    String (byte (Z.lor 192 (Z.shiftr r 6))) (String (cont r) "")
  else if r <? 65536 then
    String (byte (Z.lor 224 (Z.shiftr r 12)))
      (String (cont (Z.shiftr r 6)) (String (cont r) ""))
  else
    String (byte (Z.lor 240 (Z.shiftr r 18)))
      (String (cont (Z.shiftr r 12))
         (String (cont (Z.shiftr r 6)) (String (cont r) ""))).

Definition replacementChar : Z := 65533.

Definition isSurrogate (r : Z) : bool := (55296 <=? r) && (r <? 57344).

(** [utf16.DecodeRune]. *)
Definition decodeSurrogates (r1 r2 : Z) : Z :=
  if (55296 <=? r1) && (r1 <? 56320) && (56320 <=? r2) && (r2 <? 57344)
  then Z.lor (Z.shiftl (r1 - 55296) 10) (r2 - 56320) + 65536
  else replacementChar.

Definition simpleEscape (c : ascii) : option ascii :=
  if (c =? quoteChar)%char then Some quoteChar
  else if (c =? backslash)%char then Some backslash
  else if (c =? "/")%char then Some "/"%char
  else if (c =? "b")%char then Some "008"%char
  else if (c =? "f")%char then Some "012"%char
  else if (c =? "n")%char then Some "010"%char
  else if (c =? "r")%char then Some "013"%char
  else if (c =? "t")%char then Some "009"%char
  else None.

(** The rest of a string literal after its opening quote: the decoded
    contents and the input after the closing quote. *)
Fixpoint parseString (fuel : nat) (s : string) : option (string * string) :=
  match fuel with
  | O => None
  | S fuel =>
      match s with
      | EmptyString => None
      | String c r =>
          if (c =? quoteChar)%char then Some ("", r)
          else if (c =? backslash)%char then
            match r with
            | EmptyString => None
            | String e r' =>
                if (e =? "u")%char then
                  match hex4 r' with
                  | None => None
                  | Some (rr, r4) =>
                      let (rune, next) :=
                        if isSurrogate rr then
                          match getu4 r4 with
                          | Some (rr1, r10) =>
                              let dec := decodeSurrogates rr rr1 in
                              if dec =? replacementChar
                              then (replacementChar, r4)
                              else (dec, r10)
                          | None => (replacementChar, r4)
                          end
                        else (rr, r4) in
                      match parseString fuel next with
                      | Some (t, rest) => Some (encodeRune rune ++ t, rest)
                      | None => None
                      end
                  end
                else
                  match simpleEscape e with
                  | None => None
                  | Some x =>
                      match parseString fuel r' with
                      | Some (t, rest) => Some (String x t, rest)
                      | None => None
                      end
                  end
            end
          else if code c <? 32 then None
          else
            match parseString fuel r with
            | Some (t, rest) => Some (String c t, rest)
            | None => None
            end
      end
  end.

Fixpoint digits (s : string) : string :=
  match s with
  | String c r => if isDigit c then digits r else s
  | EmptyString => s
  end.

(** The exponent part of a number, if any. *)
Definition exponent (s : string) : option string :=
  match s with
  | String e r =>
      if (e =? "e")%char || (e =? "E")%char then
        let r := match r with
                 | String sign r' =>
                     if (sign =? "+")%char || (sign =? "-")%char
                     then r' else r
                 | EmptyString => r
                 end in
        match r with
        | String d r' => if isDigit d then Some (digits r') else None
        | EmptyString => None
        end
      else Some s
  | EmptyString => Some s
  end.

Definition fraction (s : string) : option string :=
  match s with
  | String dot r =>
      if (dot =? ".")%char then
        match r with
        | String d r' => if isDigit d then exponent (digits r') else None
        | EmptyString => None
        end
      else exponent s
  | EmptyString => Some s
  end.

(** A number literal: the input after it. *)
Definition parseNumber (s : string) : option string :=
  let s := match s with
           | String sign r => if (sign =? "-")%char then r else s
           | EmptyString => s
           end in
  match s with
  | String d r =>
      if (d =? "0")%char then fraction r
      else if isDigit d then fraction (digits r)
      else None
  | EmptyString => None
  end.

Definition literal (word : string) (v : value) (s : string)
  : option (value * string) :=
  if prefix word s
  then Some (v, substring (String.length word)
                          (String.length s - String.length word) s)
  else None.

(** One JSON value, leading white space skipped.  Every call consumes a
    byte of input before it calls in turn, so a fuel of the length of the
    input plus one is never used up. *)
Fixpoint parseValue (fuel : nat) (depth : Z) (s : string)
  : option (value * string) :=
  match fuel with
  | O => None
  | S fuel =>
      match skipWs s with
      | EmptyString => None
      | String c r =>
          if (c =? "{")%char then
            if depth + 1 >? maxNestingDepth then None
            else
              match skipWs r with
              | String c' r' =>
                  if (c' =? "}")%char then Some (Object [], r')
                  else
                    match parseMembers fuel (depth + 1) (String c' r') with
                    | Some (ms, rest) => Some (Object ms, rest)
                    | None => None
                    end
              | EmptyString => None
              end
          else if (c =? "[")%char then
            if depth + 1 >? maxNestingDepth then None
            else
              match skipWs r with
              | String c' r' =>
                  if (c' =? "]")%char then Some (Array [], r')
                  else
                    match parseElements fuel (depth + 1) (String c' r') with
                    | Some (vs, rest) => Some (Array vs, rest)
                    | None => None
                    end
              | EmptyString => None
              end
          else if (c =? quoteChar)%char then
            match parseString (String.length r) r with
            | Some (t, rest) => Some (Str t, rest)
            | None => None
            end
          else if (c =? "t")%char then literal "true" (Bool true) (String c r)
          else if (c =? "f")%char then literal "false" (Bool false) (String c r)
          else if (c =? "n")%char then literal "null" Null (String c r)
          else
            match parseNumber (String c r) with
            | Some rest => Some (Number, rest)
            | None => None
            end
      end
  end

(** The members of an object, from the first key on. *)
with parseMembers (fuel : nat) (depth : Z) (s : string)
  : option (list (string * value) * string) :=
  match fuel with
  | O => None
  | S fuel =>
      match s with
      | String c r =>
          if (c =? quoteChar)%char then
            match parseString (String.length r) r with
            | Some (key, r1) =>
                match skipWs r1 with
                | String colon r2 =>
                    if (colon =? ":")%char then
                      match parseValue fuel depth r2 with
                      | Some (v, r3) =>
                          match skipWs r3 with
                          | String d r4 =>
                              if (d =? ",")%char then
                                match parseMembers fuel depth (skipWs r4) with
                                | Some (ms, rest) =>
                                    Some ((key, v) :: ms, rest)
                                | None => None
                                end
                              else if (d =? "}")%char
                              then Some ([(key, v)], r4)
                              else None
                          | EmptyString => None
                          end
                      | None => None
                      end
                    else None
                | EmptyString => None
                end
            | None => None
            end
          else None
      | EmptyString => None
      end
  end

(** The elements of an array, from the first one on. *)
with parseElements (fuel : nat) (depth : Z) (s : string)
  : option (list value * string) :=
  match fuel with
  | O => None
  | S fuel =>
      match parseValue fuel depth s with
      | Some (v, r1) =>
          match skipWs r1 with
          | String d r2 =>
              if (d =? ",")%char then
                match parseElements fuel depth r2 with
                | Some (vs, rest) => Some (v :: vs, rest)
                | None => None
                end
              else if (d =? "]")%char then Some ([v], r2)
              else None
          | EmptyString => None
          end
      | None => None
      end
  end.

(** The whole input as one value. *)
Definition parse (data : string) : option value :=
  match parseValue (S (String.length data)) 0 data with
  | Some (v, rest) =>
      match skipWs rest with
      | EmptyString => Some v
      | String _ _ => None
      end
  | None => None
  end.

(** Folding of member names: ASCII letters to lower case, and the long s
    (U+017F) to [s], as Go's case-insensitive match has it. *)
Fixpoint foldName (s : string) : string :=
  match s with
  | EmptyString => EmptyString
  | String c r =>
      match r with
      | String c' r' =>
          if (c =? "197")%char && (c' =? "191")%char
          then String "s" (foldName r')
          else String (Str.lower c) (foldName r)
      | EmptyString => String (Str.lower c) EmptyString
      end
  end.

Definition setMember (st : LogMsg * bool) (kv : string * value)
  : LogMsg * bool :=
  let (msg, ok) := st in
  let (key, v) := kv in
  let name := foldName key in
  if (name =? "error")%string then
    match v with
    | Str s => ({| MsgError := s; MsgMessage := MsgMessage msg |}, ok)
    | Null => (msg, ok)
    | _ => (msg, false)
    end
  else if (name =? "message")%string then
    match v with
    | Str s => ({| MsgError := MsgError msg; MsgMessage := s |}, ok)
    | Null => (msg, ok)
    | _ => (msg, false)
    end
  else (msg, ok).

(** [json.Unmarshal(data, &msg)]. *)
Definition Unmarshal : Unmarshaler :=
  fun data msg =>
    match parse data with
    | None => (msg, false)
    | Some Null => (msg, true)
    | Some (Object members) => fold_left setMember members (msg, true)
    | Some _ => (msg, false)
    end.

(** Log texts are written with ['] for the double quote and [|] for the
    line feed. *)
Definition text (s : string) : string :=
  let fix go (s : string) : string :=
    match s with
    | EmptyString => EmptyString
    | String c r =>
        String (if (c =? "'")%char then quoteChar
                else if (c =? "|")%char then "010"%char else c) (go r)
    end in
  go s.

End Json.

(** ** The log text as a sequence of lines *)

Fixpoint occurs (c : ascii) (s : string) : bool :=
  match s with
  | EmptyString => false
  | String c' r => (c' =? c)%char || occurs c r
  end.

(** No line feed in [s]. *)
Definition noNewline (s : string) : Prop := occurs "010" s = false.

(** The lines [ls], each followed by a line feed. *)
Fixpoint unlines (ls : list string) : string :=
  match ls with
  | [] => ""
  | l :: rest => l ++ newline ++ unlines rest
  end.

(** The lines of [s] that end in a line feed (without it), and the bytes
    after the last line feed. *)
Fixpoint splitLines (s : string) : list string * string :=
  match s with
  | EmptyString => ([], "")
  | String c r =>
      let (ls, tail) := splitLines r in
      if (c =? "010")%char then ("" :: ls, tail)
      else
        match ls with
        | [] => ([], String c tail)
        | l :: ls' => (String c l :: ls', tail)
        end
  end.

(** The byte ranges that the scanner hands to the decoder, in the order of
    the text: the first line when it is not empty, and every later line
    together with the line feed in front of it. *)
Definition scannedLines (ls : list string) : list string :=
  match ls with
  | [] => []
  | l :: rest =>
      List.app (if (l =? "")%string then [] else [l])
               (map (fun x => newline ++ x) rest)
  end.

(** The failure text of a decoded record (l. 384-388). *)
Definition failureText (msg : LogMsg) : string :=
  if (MsgError msg =? "")%string then MsgMessage msg
  else MsgMessage msg ++ ": " ++ MsgError msg.

Section LineScanner.

Variable unmarshal : Unmarshaler.

(** The scanner over a list of lines, first element first, threading the
    record through the decoder calls as the source does. *)
Fixpoint scanLines (lines : list string) (msg : LogMsg) : option string :=
  match lines with
  | [] => None
  | line :: rest =>
      let (msg', ok) := unmarshal line msg in
      if ok && negb (MsgMessage msg' =? "")%string
      then Some (failureText msg')
      else scanLines rest msg'
  end.




End LineScanner.


(** The lines that end in a line feed, as the scanner sees them. *)
Definition terminatedLines (logs : string) : list string :=
  scannedLines (fst (splitLines logs)).

(** The way the loop ends when the scanner over the lines ends with [o]. *)
Definition scanResult (o : option string) : ScanResult :=
  match o with
  | Some s => Returned s
  | None => Fallthrough
  end.

(** ** An in-memory cluster *)

Record MemCluster := {
  stored : list Workspace;
  getFault : option Error;
  updateFault : option Error
}.

Definition named (req : NamespacedName) (w : Workspace) : bool :=
  (Namespace (Meta w) =? ReqNamespace req)%string
  && (Name (Meta w) =? ReqName req)%string.

Definition keyOf (w : Workspace) : NamespacedName :=
  {| ReqNamespace := Namespace (Meta w); ReqName := Name (Meta w) |}.

Definition memGet (c : MemCluster) (req : NamespacedName)
  : Workspace + Error :=
  match getFault c with
  | Some e => inr e
  | None =>
      match find (named req) (stored c) with
      | Some w => inl w
      | None => inr ErrNotFound
      end
  end.

Definition memStatusUpdate (c : MemCluster) (w : Workspace)
  : MemCluster * option Error :=
  match updateFault c with
  | Some e => (c, Some e)
  | None =>
      match find (named (keyOf w)) (stored c) with
      | None => (c, Some ErrNotFound)
      | Some _ =>
          ({| stored :=
                map (fun x => if named (keyOf w) x
                              then setStatus x (WsStatus w) else x)
                    (stored c);
              getFault := getFault c;
              updateFault := updateFault c |}, None)
      end
  end.

#[export] Instance memClient : Client MemCluster := {
  Get := memGet;
  StatusUpdate := memStatusUpdate
}.

(** ** Sample objects *)

Module Sample.

Definition timeouts : WorkspaceTimeoutConfiguration :=
  {| TotalStartup := 60 * Minute;
     Initialization := 30 * Minute;
     RegularWorkspace := 30 * Minute;
     MaxLifetime := 36 * Hour;
     HeadlessWorkspace := 60 * Minute;
     AfterClose := 2 * Minute;
     ContentFinalization := 55 * Minute;
     Stopping := 60 * Minute |}.


Definition workspace (phase : WorkspacePhase) (conds : list Condition)
    (headless : bool) (created : Time) (custom : option Duration)
  : Workspace :=
  {| Meta := {| Name := "ws-1"; Namespace := "default";
                CreationTimestamp := created |};
     Spec := {| WorkspaceID := "id-1"; TimeoutTime := custom |};
     WsStatus := {| Phase := phase; Conditions := conds;
                    Headless := headless; Runtime := None |} |}.

Definition noState : ContainerState :=
  {| Waiting := None; Running := None; Terminated := None |}.

Definition terminated (exitCode : Z) (reason message : string)
  : ContainerStatus :=
  {| ContainerName := "workspace"; Ready := false;
     State := {| Waiting := None; Running := None;
                 Terminated :=
                   Some {| ExitCode := exitCode;
                           TerminatedReason := reason;
                           TerminatedMessage := message |} |};
     LastTerminationState := noState |}.

Definition pod (phase : PodPhase) (deleted : option Time)
    (finalizers : list string) (css : list ContainerStatus) : Pod :=
  {| PodName := "ws-1-pod"; DeletionTimestamp := deleted;
     Finalizers := finalizers; SpecNodeName := "node-1";
     PodStatus_ := {| PodPhase_ := phase; PodReason := "";
                      PodMessage := ""; HostIP := "10.0.0.1";
                      PodIP := "10.1.0.1"; ContainerStatuses := css |} |}.

Definition finalizer : string := "gitpod.io/finalizer".

Definition cond (tpe : string) (status : ConditionStatus) (at_ : Time)
    (reason message : string) : Condition :=
  {| Type_ := tpe; Status := status; LastTransitionTime := at_;
     Reason := reason; Message := message |}.

Definition request : NamespacedName :=
  {| ReqNamespace := "default"; ReqName := "ws-1" |}.

Definition cluster (w : Workspace) : MemCluster :=
  {| stored := [w]; getFault := None; updateFault := None |}.

(** A timeout decision that stands for the absent three-argument
    [isWorkspaceTimedOut]: the policy of l. 418 on a pod that is not being
    deleted. *)
Definition timedOut (now : Time) (w : Workspace)
    (t : WorkspaceTimeoutConfiguration) (_ : unit) : string * option Error :=
  (isWorkspaceTimedOut now w (pod PodRunning None [] []) t, None).

(** 2023-01-01T00:00:00Z in nanoseconds. *)
Definition t0 : Time := 1672531200 * Second.

End Sample.

(** ** The policy as a table *)

(** The custom timeout of the workspace when it has one, else [d]. *)
Definition customOr (ws : Workspace) (d : Duration) : Duration :=
  match TimeoutTime (Spec ws) with
  | Some ctv => ctv
  | None => d
  end.

(** The rows of the policy table that apply to a workspace, in the order in
    which they are checked: reference instant, configured duration and
    label of each. *)
Definition timeoutRules (ws : Workspace) (pod : Pod)
    (timeouts : WorkspaceTimeoutConfiguration)
  : list (Time * Duration * activity) :=
  let start := CreationTimestamp (Meta ws) in
  match Phase (WsStatus ws) with
  | WorkspacePhasePending => [(start, Initialization timeouts, activityInit)]
  | WorkspacePhaseInitializing =>
      [(start, TotalStartup timeouts, activityStartup)]
  | WorkspacePhaseCreating =>
      [(start, TotalStartup timeouts, activityCreatingContainers)]
  | WorkspacePhaseRunning =>
      [(start, MaxLifetime timeouts, activityMaxLifetime);
       if Headless (WsStatus ws) then
         (start, customOr ws (HeadlessWorkspace timeouts),
          activityRunningHeadless)
       else
         match getWorkspaceActivity ws with
         | None => (start, TotalStartup timeouts, activityNone)
         | Some last =>
             if conditionPresentAndTrue (Conditions (WsStatus ws))
                                        WorkspaceConditionClosed
             then (last, AfterClose timeouts, activityClosed)
             else (last, customOr ws (RegularWorkspace timeouts),
                   activityNone)
         end]
  | WorkspacePhaseStopping =>
      match DeletionTimestamp pod with
      | Some deleted =>
          if conditionPresentAndTrue (Conditions (WsStatus ws))
                                     WorkspaceConditionBackupComplete
          then [(deleted, ContentFinalization timeouts, activityBackup)]
          else [(deleted, Stopping timeouts, activityStopping)]
      | None => []
      end
  | _ => []
  end.

(** The rule [(start, td, _)] has run out at [now]: the time since the
    reference instant is at least the configured duration. *)
Definition exceeded (now : Time) (rule : Time * Duration * activity) : Prop :=
  snd (fst rule) <= Since now (fst (fst rule)).

(** A duration in whole hours and minutes, rounded to the nearest minute,
    each of the two numbers written with at least two digits. *)
Definition hoursMinutes (d : Duration) : string :=
  let minutes := (d + 30 * Second) / Minute in
  Str.pad2 (minutes / 60) ++ "h" ++ Str.pad2 (minutes mod 60) ++ "m".

(** The reason that [decide] reports. *)
Definition reasonText (act : activity) (elapsed td : Duration) : string :=
  "workspace timed out after " ++ act ++ " (" ++ formatDuration elapsed
  ++ ") took longer than " ++ formatDuration td.

Definition setCustomTimeout (ws : Workspace) (custom : option Duration)
  : Workspace :=
  {| Meta := Meta ws;
     Spec := {| WorkspaceID := WorkspaceID (Spec ws); TimeoutTime := custom |};
     WsStatus := WsStatus ws |}.

Definition setAfterClose (t : WorkspaceTimeoutConfiguration) (d : Duration)
  : WorkspaceTimeoutConfiguration :=
  {| TotalStartup := TotalStartup t;
     Initialization := Initialization t;
     RegularWorkspace := RegularWorkspace t;
     MaxLifetime := MaxLifetime t;
     HeadlessWorkspace := HeadlessWorkspace t;
     AfterClose := d;
     ContentFinalization := ContentFinalization t;
     Stopping := Stopping t |}.

(** The reason [r] answers the rules [rules]: it is a timeout exactly when
    one of them has run out, and then it reports one that has. *)
Definition answers (now : Time) (rules : list (Time * Duration * activity))
    (r : string) : Prop :=
  (r <> "" <-> Exists (exceeded now) rules)
  /\ (r <> "" ->
      exists start td act,
        In (start, td, act) rules
        /\ td <= Since now start
        /\ r = reasonText act (Since now start) td
        /\ Str.contains (formatDuration (Since now start)) r
        /\ Str.contains (formatDuration td) r).

(** ** Notions used by the properties of the status reconciler *)

(** A terminal backup or content outcome is recorded: BackupComplete=True,
    BackupFailure=True, or ContentReady=False with reason
    InitializationFailure. *)
Definition disposalDone (conds : list Condition) : bool :=
  conditionPresentAndTrue conds WorkspaceConditionBackupComplete
  || conditionPresentAndTrue conds WorkspaceConditionBackupFailure
  || conditionWithStatusAndReson conds WorkspaceConditionContentReady
                                 false "InitializationFailure".

(** The conditions of type [tpe] in a condition set, as they are stored. *)
Definition conditionsOfType (tpe : string) (conds : list Condition)
  : list Condition :=
  filter (fun c => (Type_ c =? tpe)%string) conds.

(** First write wins: a field that is set in [old] is the same in [new]. *)
Definition keepsSetFields (old : option WorkspaceRuntimeStatus)
    (new : WorkspaceRuntimeStatus) : Prop :=
  forall rt, old = Some rt ->
    (RtNodeName rt <> "" -> RtNodeName new = RtNodeName rt)
    /\ (RtHostIP rt <> "" -> RtHostIP new = RtHostIP rt)
    /\ (RtPodIP rt <> "" -> RtPodIP new = RtPodIP rt)
    /\ (RtPodName rt <> "" -> RtPodName new = RtPodName rt).

(** The condition set after a pass over one pod: Deployed=True is upserted,
    then Failed=True with the extracted failure text, unless there is no
    failure or Failed=True is there already. *)
Definition singlePodConditions (unmarshal : Unmarshaler) (now : Time)
    (ws : Workspace) (pod : Pod) : list Condition :=
  let deployed :=
    AddUniqueCondition (Conditions (WsStatus ws))
      (conditionTrue WorkspaceConditionDeployed now "") in
  let failure := fst (extractFailure unmarshal ws pod) in
  if negb (failure =? "")%string
     && negb (conditionPresentAndTrue deployed WorkspaceConditionFailed)
  then AddUniqueCondition deployed
         (conditionTrue WorkspaceConditionFailed now failure)
  else deployed.

(** ** Notions used by the further properties *)

(** A container that [extractFailure] passes over: it does not wait on a
    failed image pull and has no terminated state, current or last. *)
Definition quietContainer (cs : ContainerStatus) : Prop :=
  (forall w, Waiting (State cs) = Some w ->
             WaitingReason w <> "ImagePullBackOff"
             /\ WaitingReason w <> "ErrImagePull")
  /\ Terminated (State cs) = None
  /\ Terminated (LastTerminationState cs) = None.

(** The pod itself reports a failure with a reason or a message (l. 287). *)
Definition podFailedWithReason (pod : Pod) : bool :=
  match PodPhase_ (PodStatus_ pod) with PodFailed => true | _ => false end
  && (negb (PodReason (PodStatus_ pod) =? "")%string
      || negb (PodMessage (PodStatus_ pod) =? "")%string).

(** The termination state that [extractFailure] looks at: the current one,
    or else the last one (l. 312-315). *)
Definition terminationOf (cs : ContainerStatus)
  : option ContainerStateTerminated :=
  match Terminated (State cs) with
  | Some t => Some t
  | None => Terminated (LastTerminationState cs)
  end.

(** The container waits on a failed image pull (l. 294-295). *)
Definition waitsOnPull (cs : ContainerStatus) : bool :=
  match Waiting (State cs) with
  | Some w => (WaitingReason w =? "ImagePullBackOff")%string
              || (WaitingReason w =? "ErrImagePull")%string
  | None => false
  end.

(** * Properties *)

(** ** Strings *)

Lemma app_assoc_s (a b c : string) : (a ++ b) ++ c = a ++ b ++ c.
Proof. induction a as [|x a IH]; simpl; [reflexivity | now rewrite IH]. Qed.

Lemma app_nil_s (a : string) : a ++ "" = a.
Proof. induction a as [|x a IH]; simpl; [reflexivity | now rewrite IH]. Qed.

Lemma length_app_s (a b : string) :
  String.length (a ++ b) = (String.length a + String.length b)%nat.
Proof. induction a as [|x a IH]; simpl; [reflexivity | now rewrite IH]. Qed.

Lemma contains_middle (pre s post : string) : Str.contains s (pre ++ s ++ post).
Proof. now exists pre, post. Qed.

Lemma contains_end (pre s : string) : Str.contains s (pre ++ s).
Proof. exists pre, "". now rewrite app_nil_s. Qed.

Lemma contains_trans (a b c : string) :
  Str.contains a b -> Str.contains b c -> Str.contains a c.
Proof.
  intros (p1 & q1 & ->) (p2 & q2 & ->).
  exists (p2 ++ p1), (q1 ++ q2).
  now rewrite !app_assoc_s.
Qed.

(** ** The timeout policy *)

Ltac range_consts :=
  unfold inRange, Since, Sub, minDuration, maxDuration in *;
  change (2 ^ 63) with 9223372036854775808 in *.

Lemma Since_exact (now start : Time) :
  inRange (now - start) -> Since now start = now - start.
Proof. range_consts. lia. Qed.

Lemma Since_threshold (now start : Time) (td : Duration) :
  minDuration < td <= maxDuration ->
  (td <= Since now start <-> td <= now - start).
Proof. range_consts. lia. Qed.

Lemma decide_reason (now start : Time) (td : Duration) (act : activity) :
  td <= Since now start ->
  decide now start td act
  = "workspace timed out after " ++ act ++ " ("
    ++ formatDuration (Since now start) ++ ") took longer than "
    ++ formatDuration td.
Proof.
  intros Hle. unfold decide.
  destruct (Z.ltb_spec (Since now start) td); [lia | reflexivity].
Qed.

Lemma decide_none (now start : Time) (td : Duration) (act : activity) :
  Since now start < td -> decide now start td act = "".
Proof.
  intros Hlt. unfold decide.
  destruct (Z.ltb_spec (Since now start) td); [reflexivity | lia].
Qed.

Lemma decide_nonempty_iff (now start : Time) (td : Duration) (act : activity) :
  decide now start td act <> "" <-> td <= Since now start.
Proof.
  split.
  - intros Hne. destruct (Z.lt_ge_cases (Since now start) td) as [Hlt | Hge].
    + now rewrite decide_none in Hne.
    + exact Hge.
  - intros Hle. rewrite decide_reason by exact Hle. discriminate.
Qed.

Lemma decide_contains (now start : Time) (td : Duration) (act : activity) :
  td <= Since now start ->
  Str.contains (formatDuration (Since now start)) (decide now start td act)
  /\ Str.contains (formatDuration td) (decide now start td act)
  /\ Str.contains act (decide now start td act).
Proof.
  intros Hle. rewrite decide_reason by exact Hle.
  repeat split.
  - exists ("workspace timed out after " ++ act ++ " ("),
           (") took longer than " ++ formatDuration td).
    now rewrite !app_assoc_s.
  - exists ("workspace timed out after " ++ act ++ " ("
            ++ formatDuration (Since now start) ++ ") took longer than "), "".
    now rewrite app_nil_s, !app_assoc_s.
  - apply contains_middle.
Qed.

Lemma running_below_max_lifetime now ws pod timeouts :
  Phase (WsStatus ws) = WorkspacePhaseRunning ->
  Since now (CreationTimestamp (Meta ws)) < MaxLifetime timeouts ->
  isWorkspaceTimedOut now ws pod timeouts
  = match
      (if Headless (WsStatus ws) then
         inr (HeadlessWorkspace timeouts, CreationTimestamp (Meta ws),
              activityRunningHeadless)
       else
         match getWorkspaceActivity ws with
         | None =>
             inl (decide now (CreationTimestamp (Meta ws))
                         (TotalStartup timeouts) activityNone)
         | Some last =>
             if conditionPresentAndTrue (Conditions (WsStatus ws))
                                        WorkspaceConditionClosed
             then inl (decide now last (AfterClose timeouts) activityClosed)
             else inr (RegularWorkspace timeouts, last, activityNone)
         end)
    with
    | inl r => r
    | inr (timeout, last, act) =>
        decide now last
               match TimeoutTime (Spec ws) with
               | Some ctv => ctv
               | None => timeout
               end act
    end.
Proof.
  intros Hphase Hlt. unfold isWorkspaceTimedOut. rewrite Hphase.
  rewrite (decide_none _ _ _ _ Hlt). reflexivity.
Qed.

(** *** Rounding and formatting *)

Lemma wrap64_id (z : Z) : inRange z -> wrap64 z = z.
Proof.
  unfold wrap64. range_consts. change (2 ^ 64) with 18446744073709551616.
  intros Hz. rewrite Z.mod_small by lia. lia.
Qed.

(** [Duration.Round] to the minute on the durations that do not overflow:
    the nearest whole number of minutes, halves rounded up. *)
Lemma Round_minute (d : Duration) :
  0 <= d <= maxDuration - Minute ->
  Round d Minute = (d + 30 * Second) / Minute * Minute.
Proof.
  intros Hd. unfold Round.
  change (Minute <=? 0) with false. cbv iota.
  destruct (Z.ltb_spec d 0) as [Hneg | _]; [lia |].
  assert (Hr : Z.rem d Minute = d mod Minute)
    by (apply Z.rem_mod_nonneg; [lia | reflexivity]).
  rewrite Hr.
  pose proof (Z.mod_pos_bound d Minute eq_refl) as Hb.
  pose proof (Z.div_mod d Minute) as Hdm.
  assert (Hdm' : d = Minute * (d / Minute) + d mod Minute)
    by (apply Hdm; discriminate).
  clear Hdm.
  set (q := d / Minute) in *. set (r := d mod Minute) in *.
  unfold lessThanHalf.
  change (Minute mod 2 ^ 64) with Minute.
  change (2 ^ 64) with 18446744073709551616.
  unfold Minute, Second in *. range_consts.
  rewrite (Z.mod_small r) by lia.
  rewrite (Z.mod_small (r + r)) by lia.
  destruct (Z.ltb_spec (r + r) (60 * 1000000000)) as [Hhalf | Hhalf].
  - rewrite wrap64_id by (range_consts; lia).
    assert (Hq : (d + 30 * 1000000000) / (60 * 1000000000) = q).
    { symmetry. apply (Z.div_unique _ _ q (r + 30 * 1000000000)); lia. }
    rewrite Hq. lia.
  - rewrite (wrap64_id (d + _)) by (range_consts; lia).
    rewrite wrap64_id by (range_consts; lia).
    assert (Hq : (d + 30 * 1000000000) / (60 * 1000000000) = q + 1).
    { symmetry. apply (Z.div_unique _ _ (q + 1) (r - 30 * 1000000000)); lia. }
    rewrite Hq.
    destruct (Z.gtb_spec (d + 60 * 1000000000 - r) d); lia.
Qed.

(** [formatDuration] writes whole hours and minutes. *)
Lemma formatDuration_hoursMinutes (d : Duration) :
  0 <= d <= maxDuration - Minute ->
  formatDuration d = hoursMinutes d.
Proof.
  intros Hd. unfold formatDuration, hoursMinutes.
  rewrite (Round_minute d Hd).
  set (n := (d + 30 * Second) / Minute).
  assert (Hn : 0 <= n <= (maxDuration - Minute + 30 * Second) / Minute).
  { subst n. split.
    - apply Z.div_pos; [unfold Second; lia | reflexivity].
    - apply Z.div_le_mono; [reflexivity | lia]. }
  change ((maxDuration - Minute + 30 * Second) / Minute)
    with 153722866 in Hn.
  pose proof (Z.div_mod n 60) as Hdm.
  assert (Hdm' : n = 60 * (n / 60) + n mod 60) by (apply Hdm; discriminate).
  clear Hdm.
  pose proof (Z.mod_pos_bound n 60 eq_refl) as Hb.
  assert (Hq0 : 0 <= n / 60) by (apply Z.div_pos; lia).
  assert (Hh : Z.quot (n * Minute) Hour = n / 60).
  { rewrite Z.quot_div_nonneg by (unfold Hour, Minute, Second; lia).
    symmetry. apply (Z.div_unique _ _ (n / 60) (n mod 60 * Minute));
      unfold Hour, Minute, Second; lia. }
  rewrite Hh.
  assert (Hw1 : wrap64 (n / 60 * Hour) = n / 60 * Hour).
  { apply wrap64_id. range_consts. unfold Hour, Minute, Second. lia. }
  rewrite Hw1.
  assert (Hrest : n * Minute - n / 60 * Hour = n mod 60 * Minute)
    by (unfold Hour, Minute, Second; lia).
  rewrite Hrest.
  rewrite wrap64_id by (range_consts; unfold Minute, Second; lia).
  assert (Hm : Z.quot (n mod 60 * Minute) Minute = n mod 60).
  { rewrite Z.quot_div_nonneg by (unfold Minute, Second; lia).
    apply Z.div_mul. discriminate. }
  now rewrite Hm.
Qed.

(** *** The rows of the table *)

Lemma timed_out_first_rule now ws pod timeouts :
  isWorkspaceTimedOut now ws pod timeouts
  = match timeoutRules ws pod timeouts with
    | [] => ""
    | [(start, td, act)] => decide now start td act
    | (start, td, act) :: (start', td', act') :: _ =>
        if td <=? Since now start then decide now start td act
        else decide now start' td' act'
    end.
Proof.
  unfold isWorkspaceTimedOut, timeoutRules, customOr.
  destruct (Phase (WsStatus ws)); try reflexivity.
  - assert (Hmax : forall other,
               (if negb (decide now (CreationTimestamp (Meta ws))
                                (MaxLifetime timeouts) activityMaxLifetime
                         =? "")%string
                then decide now (CreationTimestamp (Meta ws))
                            (MaxLifetime timeouts) activityMaxLifetime
                else other)
               = if MaxLifetime timeouts
                    <=? Since now (CreationTimestamp (Meta ws))
                 then decide now (CreationTimestamp (Meta ws))
                             (MaxLifetime timeouts) activityMaxLifetime
                 else other).
    { intros other.
      destruct (Z.leb_spec (MaxLifetime timeouts)
                  (Since now (CreationTimestamp (Meta ws)))) as [Hle | Hlt].
      - now rewrite (decide_reason _ _ _ _ Hle).
      - now rewrite (decide_none _ _ _ _ Hlt). }
    rewrite Hmax.
    destruct (Headless (WsStatus ws)); [reflexivity |].
    destruct (getWorkspaceActivity ws); [| reflexivity].
    now destruct (conditionPresentAndTrue _ _).
  - destruct (DeletionTimestamp pod); [| reflexivity].
    now destruct (conditionPresentAndTrue _ _).
Qed.

(** C4.  Max-lifetime precedence: a Running workspace whose age has reached
    [MaxLifetime] is reported as timed out with the maximum-lifetime reason,
    whatever its last activity, its Closed condition, its headless flag and
    its custom timeout are. *)
Theorem max_lifetime_precedence now ws pod timeouts :
  Phase (WsStatus ws) = WorkspacePhaseRunning ->
  MaxLifetime timeouts <= Since now (CreationTimestamp (Meta ws)) ->
  isWorkspaceTimedOut now ws pod timeouts
  = reasonText activityMaxLifetime
               (Since now (CreationTimestamp (Meta ws)))
               (MaxLifetime timeouts)
  /\ isWorkspaceTimedOut now ws pod timeouts <> ""
  /\ Str.contains "maximum lifetime" (isWorkspaceTimedOut now ws pod timeouts).
Proof.
  intros Hphase Hle.
  assert (Heq : isWorkspaceTimedOut now ws pod timeouts
                = reasonText activityMaxLifetime
                    (Since now (CreationTimestamp (Meta ws)))
                    (MaxLifetime timeouts)).
  { unfold isWorkspaceTimedOut. rewrite Hphase.
    rewrite (decide_reason _ _ _ _ Hle). reflexivity. }
  rewrite Heq. repeat split.
  - discriminate.
  - unfold reasonText. apply contains_middle.
Qed.

(** A closed, headless workspace with a custom timeout and activity one
    minute ago, 37 hours old with a maximum lifetime of 36 hours. *)
Lemma max_lifetime_precedence_witness :
  let ws := Sample.workspace WorkspacePhaseRunning
              [Sample.cond WorkspaceConditionUserActivity ConditionTrue
                 (Sample.t0 + 37 * Hour - Minute) "" "";
               Sample.cond WorkspaceConditionClosed ConditionTrue
                 (Sample.t0 + 36 * Hour) "" ""]
              true Sample.t0 (Some (100 * Hour)) in
  isWorkspaceTimedOut (Sample.t0 + 37 * Hour) ws
    (Sample.pod PodRunning None [] []) Sample.timeouts
  = "workspace timed out after maximum lifetime (37h00m) took longer than 36h00m".
Proof.
  intros ws.
  destruct (max_lifetime_precedence (Sample.t0 + 37 * Hour) ws
              (Sample.pod PodRunning None [] []) Sample.timeouts)
    as (Heq & _ & _).
  - reflexivity.
  - vm_compute. discriminate.
  - rewrite Heq. vm_compute. reflexivity.
Defined.

(** C7, as amended.  A headless Running workspace below its maximum
    lifetime is measured from its creation time against its custom timeout
    when it has one, and against [HeadlessWorkspace] otherwise. *)
Theorem headless_rule now ws pod timeouts :
  Phase (WsStatus ws) = WorkspacePhaseRunning ->
  Headless (WsStatus ws) = true ->
  Since now (CreationTimestamp (Meta ws)) < MaxLifetime timeouts ->
  isWorkspaceTimedOut now ws pod timeouts
  = decide now (CreationTimestamp (Meta ws))
           (match TimeoutTime (Spec ws) with
            | Some custom => custom
            | None => HeadlessWorkspace timeouts
            end)
           activityRunningHeadless.
Proof.
  intros Hphase Hheadless Hlt.
  rewrite (running_below_max_lifetime _ _ _ _ Hphase Hlt), Hheadless.
  reflexivity.
Qed.

Lemma headless_rule_witness :
  let ws := Sample.workspace WorkspacePhaseRunning [] true Sample.t0 None in
  isWorkspaceTimedOut (Sample.t0 + 61 * Minute) ws
    (Sample.pod PodRunning None [] []) Sample.timeouts
  = "workspace timed out after running the headless workspace (01h01m) took longer than 01h00m".
Proof.
  intros ws.
  rewrite (headless_rule (Sample.t0 + 61 * Minute) ws
             (Sample.pod PodRunning None [] []) Sample.timeouts).
  - vm_compute. reflexivity.
  - reflexivity.
  - reflexivity.
  - vm_compute. reflexivity.
Defined.

(** C7 as stated fails: a headless workspace with a custom timeout of one
    minute and a [HeadlessWorkspace] duration of an hour is timed out after
    five minutes, which the [HeadlessWorkspace] duration does not allow. *)
Lemma headless_custom_timeout_counterexample :
  let ws := Sample.workspace WorkspacePhaseRunning [] true Sample.t0
              (Some Minute) in
  let now := Sample.t0 + 5 * Minute in
  let pod := Sample.pod PodRunning None [] [] in
  Phase (WsStatus ws) = WorkspacePhaseRunning
  /\ Headless (WsStatus ws) = true
  /\ Since now (CreationTimestamp (Meta ws)) < MaxLifetime Sample.timeouts
  /\ decide now (CreationTimestamp (Meta ws))
            (HeadlessWorkspace Sample.timeouts) activityRunningHeadless = ""
  /\ isWorkspaceTimedOut now ws pod Sample.timeouts
     = "workspace timed out after running the headless workspace (00h05m) took longer than 00h01m"
  /\ isWorkspaceTimedOut now ws pod Sample.timeouts
     <> decide now (CreationTimestamp (Meta ws))
               (HeadlessWorkspace Sample.timeouts) activityRunningHeadless.
Proof.
  vm_compute. repeat split; discriminate.
Qed.

Lemma no_activity_iff (ws : Workspace) :
  getWorkspaceActivity ws = None
  <-> conditionsOfType WorkspaceConditionUserActivity
                       (Conditions (WsStatus ws)) = [].
Proof.
  unfold getWorkspaceActivity, conditionsOfType.
  induction (Conditions (WsStatus ws)) as [| c rest IH]; cbn.
  - tauto.
  - destruct (Type_ c =? WorkspaceConditionUserActivity)%string.
    + split; discriminate.
    + exact IH.
Qed.

(** C10.  The never-active rule: a Running workspace that is not headless,
    is below its maximum lifetime and carries no UserActivity condition is
    measured from its creation time against [TotalStartup], also when it is
    closed; the result does not change with [AfterClose] or with the custom
    timeout. *)
Theorem never_active_rule now ws pod timeouts :
  Phase (WsStatus ws) = WorkspacePhaseRunning ->
  Headless (WsStatus ws) = false ->
  Since now (CreationTimestamp (Meta ws)) < MaxLifetime timeouts ->
  conditionsOfType WorkspaceConditionUserActivity (Conditions (WsStatus ws))
  = [] ->
  isWorkspaceTimedOut now ws pod timeouts
  = decide now (CreationTimestamp (Meta ws)) (TotalStartup timeouts)
           activityNone
  /\ forall custom afterClose,
       isWorkspaceTimedOut now (setCustomTimeout ws custom) pod
                           (setAfterClose timeouts afterClose)
       = isWorkspaceTimedOut now ws pod timeouts.
Proof.
  intros Hphase Hheadless Hlt Hnone.
  assert (Hact : getWorkspaceActivity ws = None)
    by now apply no_activity_iff.
  assert (Heq : forall ws' timeouts',
             Phase (WsStatus ws') = WorkspacePhaseRunning ->
             Headless (WsStatus ws') = false ->
             Since now (CreationTimestamp (Meta ws')) < MaxLifetime timeouts' ->
             getWorkspaceActivity ws' = None ->
             isWorkspaceTimedOut now ws' pod timeouts'
             = decide now (CreationTimestamp (Meta ws'))
                      (TotalStartup timeouts') activityNone).
  { intros ws' timeouts' H1 H2 H3 H4.
    rewrite (running_below_max_lifetime _ _ _ _ H1 H3), H2, H4.
    reflexivity. }
  split.
  - now apply Heq.
  - intros custom afterClose.
    rewrite (Heq ws timeouts) by assumption.
    now rewrite (Heq (setCustomTimeout ws custom)
                     (setAfterClose timeouts afterClose)).
Qed.

(** Closed for nine minutes with [AfterClose] at two minutes and a custom
    timeout of one minute, yet never active: no timeout before
    [TotalStartup]. *)
Lemma never_active_rule_witness :
  let ws := Sample.workspace WorkspacePhaseRunning
              [Sample.cond WorkspaceConditionClosed ConditionTrue
                 (Sample.t0 + Minute) "" ""]
              false Sample.t0 (Some Minute) in
  let pod := Sample.pod PodRunning None [] [] in
  conditionPresentAndTrue (Conditions (WsStatus ws)) WorkspaceConditionClosed
  = true
  /\ isWorkspaceTimedOut (Sample.t0 + 10 * Minute) ws pod Sample.timeouts = ""
  /\ isWorkspaceTimedOut (Sample.t0 + 60 * Minute) ws pod Sample.timeouts
     = "workspace timed out after period of inactivity (01h00m) took longer than 01h00m".
Proof.
  intros ws pod. split; [reflexivity |]. split.
  - destruct (never_active_rule (Sample.t0 + 10 * Minute) ws pod
                Sample.timeouts) as [Heq _];
      [reflexivity | reflexivity | reflexivity | reflexivity |].
    rewrite Heq. vm_compute. reflexivity.
  - destruct (never_active_rule (Sample.t0 + 60 * Minute) ws pod
                Sample.timeouts) as [Heq _];
      [reflexivity | reflexivity | reflexivity | reflexivity |].
    rewrite Heq. vm_compute. reflexivity.
Defined.

Lemma timeoutRules_length ws pod timeouts :
  (List.length (timeoutRules ws pod timeouts) <= 2)%nat.
Proof.
  unfold timeoutRules.
  destruct (Phase (WsStatus ws)); cbn; try lia.
  destruct (DeletionTimestamp pod); cbn; [| lia].
  destruct (conditionPresentAndTrue _ _); cbn; lia.
Qed.

Lemma answers_nil now : answers now [] "".
Proof.
  split.
  - split; [congruence | intros H; inversion H].
  - congruence.
Qed.

Lemma answers_decide now start td act rest :
  td <= Since now start ->
  answers now ((start, td, act) :: rest) (decide now start td act).
Proof.
  intros Hle. split.
  - split; intros _.
    + now apply Exists_cons_hd.
    + now apply decide_nonempty_iff.
  - intros _. exists start, td, act.
    destruct (decide_contains now start td act Hle) as (H1 & H2 & _).
    repeat split; try assumption.
    + now left.
    + now apply decide_reason.
Qed.

Lemma answers_skip now start td act rest r :
  Since now start < td ->
  answers now rest r -> answers now ((start, td, act) :: rest) r.
Proof.
  intros Hlt [Hiff Hex]. split.
  - rewrite Hiff. split; intros H.
    + now apply Exists_cons_tl.
    + inversion H as [? ? Hhd | ? ? Htl]; subst; [| assumption].
      unfold exceeded in Hhd. cbn in Hhd. lia.
  - intros Hne. destruct (Hex Hne) as (s & t & a & Hin & Hrest).
    exists s, t, a. split; [now right | assumption].
Qed.

Lemma answers_one now start td act :
  answers now [(start, td, act)] (decide now start td act).
Proof.
  destruct (Z.le_gt_cases td (Since now start)) as [Hle | Hlt].
  - now apply answers_decide.
  - rewrite decide_none by lia.
    apply answers_skip; [lia | apply answers_nil].
Qed.



(** ** The timeout reconciler *)

Section TimeoutReconcilerFacts.

Context {WorkspaceActivity : Type}.
Variable workspaceTimedOut :
  Time -> Workspace -> WorkspaceTimeoutConfiguration -> WorkspaceActivity
  -> string * option Error.
Context {C : Type} `{Client C}.

(** The cluster after a pass: untouched, or the fetched workspace with a
    new condition set handed to [Status().Update]. *)
Lemma Reconcile_writes (r : TimeoutReconciler WorkspaceActivity) now
    (cluster : C) req :
  snd (Reconcile workspaceTimedOut r now cluster req) = cluster
  \/ exists ws timedout,
       Get cluster req = inl ws
       /\ conditionPresentAndTrue (Conditions (WsStatus ws))
                                  WorkspaceConditionTimeout = false
       /\ timedout <> ""
       /\ snd (Reconcile workspaceTimedOut r now cluster req)
          = fst (StatusUpdate cluster
                   (setConditions ws
                      (AddUniqueCondition (Conditions (WsStatus ws))
                         (conditionTrue WorkspaceConditionTimeout now
                                        timedout)))).
Proof.
  unfold Reconcile.
  destruct (Get cluster req) as [ws | err]; [| now left].
  destruct (workspaceTimedOut now ws (Timeouts (Config r)) (activity_ r))
    as [timedout [err |]]; [now left |].
  destruct (String.eqb_spec timedout "") as [Hempty | Hne]; [now left |].
  destruct (conditionPresentAndTrue (Conditions (WsStatus ws))
                                    WorkspaceConditionTimeout) eqn:Hlatch;
    [now left |].
  right. exists ws, timedout.
  destruct (StatusUpdate cluster _) as [cluster' err] eqn:Hupd.
  repeat split; assumption || reflexivity.
Qed.

(** A workspace that carries Timeout=True is not written again. *)
Lemma Reconcile_timeout_latch (r : TimeoutReconciler WorkspaceActivity) now
    (cluster : C) req ws :
  Get cluster req = inl ws ->
  conditionPresentAndTrue (Conditions (WsStatus ws))
                          WorkspaceConditionTimeout = true ->
  snd (Reconcile workspaceTimedOut r now cluster req) = cluster.
Proof.
  intros Hget Hlatch.
  destruct (Reconcile_writes r now cluster req)
    as [Hsame | (ws' & timedout & Hget' & Hlatch' & _)]; [exact Hsame |].
  rewrite Hget in Hget'. injection Hget' as <-. congruence.
Qed.

Lemma Reconcile_requeue (r : TimeoutReconciler WorkspaceActivity) now
    (cluster : C) req ws :
  Get cluster req = inl ws ->
  RequeueAfter (fst (fst (Reconcile workspaceTimedOut r now cluster req)))
  = reconcileInterval r.
Proof.
  intros Hget. unfold Reconcile. rewrite Hget.
  destruct (workspaceTimedOut now ws (Timeouts (Config r)) (activity_ r))
    as [timedout [err |]]; [reflexivity |].
  destruct (timedout =? "")%string; [reflexivity |].
  destruct (conditionPresentAndTrue _ _); [reflexivity |].
  now destruct (StatusUpdate cluster _).
Qed.

End TimeoutReconcilerFacts.

(** C8.  Sampling: the reconciler built from a configuration requeues itself
    after half the heartbeat interval (integer division of the nanosecond
    count; two minutes for a heartbeat of four), and every pass that fetched
    its workspace returns with exactly that interval as [RequeueAfter]. *)
Theorem self_requeue_interval (WorkspaceActivity : Type)
    (workspaceTimedOut :
       Time -> Workspace -> WorkspaceTimeoutConfiguration -> WorkspaceActivity
       -> string * option Error)
    (cfg : Configuration) (act : WorkspaceActivity) :
  reconcileInterval (NewTimeoutReconciler cfg act)
  = Z.quot (HeartbeatInterval cfg) 2
  /\ (HeartbeatInterval cfg = 4 * Minute ->
      reconcileInterval (NewTimeoutReconciler cfg act) = 2 * Minute)
  /\ forall (C : Type) (client : Client C)
            (r : TimeoutReconciler WorkspaceActivity) now (cluster : C) req ws,
       Get cluster req = inl ws ->
       RequeueAfter (fst (fst (Reconcile workspaceTimedOut r now cluster req)))
       = reconcileInterval r.
Proof.
  split; [reflexivity |]. split.
  - intros Hhb. cbn. rewrite Hhb. reflexivity.
  - intros C client r now cluster req ws Hget.
    now apply Reconcile_requeue with (ws := ws).
Qed.

(** A heartbeat of four minutes, and a pass over a workspace that has not
    timed out. *)
Lemma self_requeue_interval_witness :
  let cfg := {| Timeouts := Sample.timeouts;
                HeartbeatInterval := 4 * Minute |} in
  let r := NewTimeoutReconciler cfg tt in
  let ws := Sample.workspace WorkspacePhaseRunning [] true Sample.t0 None in
  reconcileInterval r = 2 * Minute
  /\ RequeueAfter
       (fst (fst (Reconcile Sample.timedOut r (Sample.t0 + Minute)
                            (Sample.cluster ws) Sample.request)))
     = 2 * Minute.
Proof.
  intros cfg r ws.
  destruct (self_requeue_interval unit Sample.timedOut cfg tt)
    as (_ & Hfour & Hpass).
  split.
  - apply Hfour. reflexivity.
  - rewrite (Hpass MemCluster memClient r (Sample.t0 + Minute)
               (Sample.cluster ws) Sample.request ws eq_refl).
    apply Hfour. reflexivity.
Defined.

(** ** The condition set *)

Lemma conditionsOfType_add_other (tpe : string) (cond : Condition)
    (conds : list Condition) :
  Type_ cond <> tpe ->
  conditionsOfType tpe (AddUniqueCondition conds cond)
  = conditionsOfType tpe conds.
Proof.
  intros Hne. unfold conditionsOfType.
  induction conds as [| c rest IH]; cbn.
  - now apply String.eqb_neq in Hne as ->.
  - destruct (String.eqb_spec (Type_ c) (Type_ cond)) as [Heq | Hdiff].
    + destruct (statusEqb _ _ && _); [reflexivity |].
      cbn. apply String.eqb_neq in Hne as Hne'. rewrite Hne'.
      rewrite Heq, Hne'. reflexivity.
    + cbn. now rewrite IH.
Qed.

Lemma conditionPresentAndTrue_ofType (tpe : string) (conds : list Condition) :
  conditionPresentAndTrue conds tpe
  = existsb (fun c => statusEqb (Status c) ConditionTrue)
            (conditionsOfType tpe conds).
Proof.
  unfold conditionPresentAndTrue, conditionsOfType.
  induction conds as [| c rest IH]; cbn; [reflexivity |].
  destruct (Type_ c =? tpe)%string; cbn; now rewrite IH.
Qed.

Lemma conditionWithStatusAndReson_ofType (tpe : string) (status : bool)
    (reason : string) (conds : list Condition) :
  conditionWithStatusAndReson conds tpe status reason
  = existsb (fun c => statusEqb (Status c)
                        (if status then ConditionTrue else ConditionFalse)
                      && (Reason c =? reason)%string)
            (conditionsOfType tpe conds).
Proof.
  unfold conditionWithStatusAndReson, conditionsOfType.
  induction conds as [| c rest IH]; cbn; [reflexivity |].
  destruct (Type_ c =? tpe)%string; cbn; now rewrite IH.
Qed.

Lemma conditionPresentAndTrue_add_other (tpe : string) (cond : Condition)
    (conds : list Condition) :
  Type_ cond <> tpe ->
  conditionPresentAndTrue (AddUniqueCondition conds cond) tpe
  = conditionPresentAndTrue conds tpe.
Proof.
  intros Hne.
  now rewrite !conditionPresentAndTrue_ofType, conditionsOfType_add_other.
Qed.

Lemma disposalDone_add_other (cond : Condition) (conds : list Condition) :
  Type_ cond <> WorkspaceConditionBackupComplete ->
  Type_ cond <> WorkspaceConditionBackupFailure ->
  Type_ cond <> WorkspaceConditionContentReady ->
  disposalDone (AddUniqueCondition conds cond) = disposalDone conds.
Proof.
  intros H1 H2 H3. unfold disposalDone.
  rewrite !conditionPresentAndTrue_add_other by assumption.
  now rewrite !conditionWithStatusAndReson_ofType,
              conditionsOfType_add_other.
Qed.

(** ** The status reconciler *)

Section StatusReconcilerFacts.

Variable gitpodPodFinalizerName : string.
Variable unmarshal : Unmarshaler.

Let update := updateWorkspaceStatus gitpodPodFinalizerName unmarshal.
Let phaseOf := podPhase gitpodPodFinalizerName.

Lemma extractFailure_reads_headless (ws ws' : Workspace) (pod : Pod) :
  Headless (WsStatus ws') = Headless (WsStatus ws) ->
  extractFailure unmarshal ws' pod = extractFailure unmarshal ws pod.
Proof. intros Hh. unfold extractFailure. now rewrite Hh. Qed.

Lemma podPhase_reads (ws ws' : Workspace) (pod : Pod) :
  Headless (WsStatus ws') = Headless (WsStatus ws) ->
  Conditions (WsStatus ws') = Conditions (WsStatus ws) ->
  phaseOf ws' pod = phaseOf ws pod.
Proof. intros Hh Hc. subst phaseOf. unfold podPhase. now rewrite Hh, Hc. Qed.

(** A pass over one pod, spelled out: the phase is the one of the
    [switch]; the phase that [extractFailure] returns is overwritten. *)
Lemma update_single (now : Time) (ws : Workspace) (pod : Pod) :
  update now ws [pod]
  = {| Meta := Meta ws; Spec := Spec ws;
       WsStatus :=
         {| Phase := phaseOf (setConditions ws
                                (singlePodConditions unmarshal now ws pod))
                             pod;
            Conditions := singlePodConditions unmarshal now ws pod;
            Headless := Headless (WsStatus ws);
            Runtime := Some (updateRuntime (Runtime (WsStatus ws)) pod) |} |}.
Proof.
  subst update phaseOf.
  unfold updateWorkspaceStatus, singlePodConditions.
  rewrite (extractFailure_reads_headless ws) by reflexivity.
  destruct (extractFailure unmarshal ws pod) as [failure phase].
  destruct ws as [m sp [ph cs h rt]].
  cbv [fst setPhase setConditions setRuntime setStatus WsStatus Conditions
       Headless Runtime Phase Meta Spec].
  destruct phase as [p |];
    destruct (negb (failure =? "")%string
              && negb (conditionPresentAndTrue
                         (AddUniqueCondition cs
                            (conditionTrue WorkspaceConditionDeployed now ""))
                         WorkspaceConditionFailed));
    reflexivity.
Qed.

Lemma update_none (now : Time) (ws : Workspace) :
  update now ws []
  = setPhase ws
      match Phase (WsStatus ws) with
      | PhaseUnset | WorkspacePhasePending => WorkspacePhasePending
      | _ => WorkspacePhaseStopped
      end
  \/ update now ws [] = ws.
Proof.
  subst update. unfold updateWorkspaceStatus.
  destruct ws as [m sp [ph cs h rt]]. destruct ph; cbn; auto.
Qed.

End StatusReconcilerFacts.

Section StatusReconcilerClaims.

Variable gitpodPodFinalizerName : string.
Variable unmarshal : Unmarshaler.

Let update := updateWorkspaceStatus gitpodPodFinalizerName unmarshal.

Lemma disposalDone_single now ws pod :
  disposalDone (singlePodConditions unmarshal now ws pod)
  = disposalDone (Conditions (WsStatus ws)).
Proof.
  unfold singlePodConditions.
  destruct (negb _ && negb _).
  - rewrite !disposalDone_add_other; [reflexivity | discriminate ..].
  - rewrite disposalDone_add_other; [reflexivity | discriminate ..].
Qed.

Lemma hasFinalizer_In (fs : list string) :
  existsb (fun f => (f =? gitpodPodFinalizerName)%string) fs = true
  <-> In gitpodPodFinalizerName fs.
Proof.
  rewrite existsb_exists. split.
  - intros (f & Hin & Heq). apply String.eqb_eq in Heq. now subst.
  - intros Hin. exists gitpodPodFinalizerName.
    split; [exact Hin | apply String.eqb_refl].
Qed.

(** The phase of a pass over one pod that is being deleted. *)
Lemma deleted_pod_phase now ws pod deleted :
  DeletionTimestamp pod = Some deleted ->
  Phase (WsStatus (update now ws [pod]))
  = if existsb (fun f => (f =? gitpodPodFinalizerName)%string)
               (Finalizers pod)
    then if disposalDone (Conditions (WsStatus ws))
         then WorkspacePhaseStopped else WorkspacePhaseStopping
    else WorkspacePhaseStopped.
Proof.
  intros Hdel. subst update. rewrite update_single.
  cbn [Phase WsStatus]. unfold podPhase, isPodBeingDeleted.
  rewrite Hdel. cbn [setConditions setStatus WsStatus Conditions].
  fold (disposalDone (singlePodConditions unmarshal now ws pod)).
  now rewrite disposalDone_single.
Qed.

(** The phase of a pass over one pod that is not being deleted: the
    table of the pod phases. *)
Lemma live_pod_phase now ws pod :
  DeletionTimestamp pod = None ->
  Phase (WsStatus (update now ws [pod]))
  = match PodPhase_ (PodStatus_ pod) with
    | PodPending =>
        if existsb
             (fun cs =>
                match Waiting (State cs) with
                | Some w =>
                    (WaitingReason w =? "ContainerCreating")%string
                    || (WaitingReason w =? "ImagePullBackOff")%string
                    || (WaitingReason w =? "ErrImagePull")%string
                | None => false
                end)
             (ContainerStatuses (PodStatus_ pod))
        then WorkspacePhaseCreating else WorkspacePhasePending
    | PodRunning =>
        if existsb Ready (ContainerStatuses (PodStatus_ pod))
        then WorkspacePhaseRunning else WorkspacePhaseInitializing
    | PodSucceeded | PodFailed =>
        if Headless (WsStatus ws) then WorkspacePhaseStopping
        else WorkspacePhaseUnknown
    | PodUnknown | PodPhaseUnset => WorkspacePhaseUnknown
    end.
Proof.
  intros Hlive. subst update. rewrite update_single.
  cbn [Phase WsStatus]. unfold podPhase, isPodBeingDeleted.
  rewrite Hlive. reflexivity.
Qed.

(** C3.  A pass over one pod that is being deleted leaves the workspace
    Stopping or Stopped.  With the disposal finalizer on the pod it is
    Stopped exactly when the condition set holds BackupComplete=True,
    BackupFailure=True or ContentReady=False with reason
    InitializationFailure, and Stopping otherwise; without the finalizer
    it is Stopped whatever the conditions are. *)
Theorem deletion_phase now ws pod deleted :
  DeletionTimestamp pod = Some deleted ->
  let ws' := update now ws [pod] in
  (In gitpodPodFinalizerName (Finalizers pod) ->
     (Phase (WsStatus ws') = WorkspacePhaseStopped
      <-> disposalDone (Conditions (WsStatus ws)) = true)
     /\ (Phase (WsStatus ws') = WorkspacePhaseStopping
         <-> disposalDone (Conditions (WsStatus ws)) = false))
  /\ (~ In gitpodPodFinalizerName (Finalizers pod) ->
      Phase (WsStatus ws') = WorkspacePhaseStopped)
  /\ disposalDone (Conditions (WsStatus ws'))
     = disposalDone (Conditions (WsStatus ws)).
Proof.
  intros Hdel ws'. subst ws'.
  rewrite (deleted_pod_phase now ws pod deleted Hdel).
  split; [| split].
  - intros Hfin. apply hasFinalizer_In in Hfin. rewrite Hfin.
    destruct (disposalDone (Conditions (WsStatus ws)));
      split; split; intros; congruence.
  - intros Hnofin.
    destruct (existsb _ (Finalizers pod)) eqn:Hex; [| reflexivity].
    apply hasFinalizer_In in Hex. contradiction.
  - subst update. rewrite update_single. cbn [Conditions WsStatus].
    apply disposalDone_single.
Qed.

(** *** The Failed latch *)

Lemma failed_latch_single now ws pod :
  conditionPresentAndTrue (Conditions (WsStatus ws))
                          WorkspaceConditionFailed = true ->
  conditionsOfType WorkspaceConditionFailed
                   (Conditions (WsStatus (update now ws [pod])))
  = conditionsOfType WorkspaceConditionFailed (Conditions (WsStatus ws)).
Proof.
  intros Hlatch. subst update. rewrite update_single.
  cbn [Conditions WsStatus]. unfold singlePodConditions.
  rewrite conditionPresentAndTrue_add_other by discriminate.
  rewrite Hlatch, andb_false_r.
  apply conditionsOfType_add_other. discriminate.
Qed.

Lemma failed_latch_no_pod now ws :
  Conditions (WsStatus (update now ws [])) = Conditions (WsStatus ws).
Proof.
  destruct (update_none gitpodPodFinalizerName unmarshal now ws) as [H | H];
    subst update; rewrite H; reflexivity.
Qed.

(** With more than one pod the stored Failed condition is replaced by the
    one about the pods, unless it has the same message already. *)
Lemma failed_latch_many_pods now ws pod pod' pods old rest :
  Conditions (WsStatus ws) = old :: rest ->
  Type_ old = WorkspaceConditionFailed ->
  Status old = ConditionTrue ->
  Message old <> "multiple pods exists - this should never happen" ->
  Conditions (WsStatus (update now ws (pod :: pod' :: pods)))
  = conditionTrue WorkspaceConditionFailed now
      "multiple pods exists - this should never happen" :: rest.
Proof.
  intros Hconds Htype Hstatus Hmsg. subst update.
  unfold updateWorkspaceStatus.
  cbn [setConditions setStatus WsStatus Conditions].
  rewrite Hconds. cbn [AddUniqueCondition conditionTrue Type_ Status Message].
  rewrite Htype, Hstatus. cbn [statusEqb andb].
  apply String.eqb_neq in Hmsg. rewrite Hmsg.
  reflexivity.
Qed.

(** *** The failure of a terminated container *)

Lemma extractFailure_terminated ws pod cs rest t :
  DeletionTimestamp pod = None ->
  PodPhase_ (PodStatus_ pod) <> PodFailed
  \/ (PodReason (PodStatus_ pod) = "" /\ PodMessage (PodStatus_ pod) = "") ->
  ContainerStatuses (PodStatus_ pod) = cs :: rest ->
  Waiting (State cs) = None ->
  Terminated (State cs) = Some t
  \/ (Terminated (State cs) = None
      /\ Terminated (LastTerminationState cs) = Some t) ->
  ExitCode t <> 0 ->
  TerminatedMessage t <> "" ->
  extractFailure unmarshal ws pod
  = (extractFailureFromLogs unmarshal (TerminatedMessage t),
     Some WorkspacePhaseRunning).
Proof.
  intros Hlive Hpod Hcss Hwait Hterm Hexit Hmsg.
  unfold extractFailure.
  assert (Hguard :
            match PodPhase_ (PodStatus_ pod) with
            | PodFailed => true | _ => false end
            && (negb (PodReason (PodStatus_ pod) =? "")%string
                || negb (PodMessage (PodStatus_ pod) =? "")%string)
            = false).
  { destruct Hpod as [Hne | [Hr Hm]].
    - destruct (PodPhase_ (PodStatus_ pod)); try reflexivity. congruence.
    - rewrite Hr, Hm. apply andb_false_r. }
  rewrite Hguard, Hcss. cbn [containersFailure].
  unfold containerFailure, isPodBeingDeleted.
  rewrite Hwait, Hlive.
  assert (Hts : match Terminated (State cs) with
                | Some t0 => Some t0
                | None => Terminated (LastTerminationState cs)
                end = Some t).
  { destruct Hterm as [-> | [-> ->]]; reflexivity. }
  rewrite Hts.
  apply Z.eqb_neq in Hexit. apply String.eqb_neq in Hmsg.
  rewrite Hexit, Hmsg. reflexivity.
Qed.

End StatusReconcilerClaims.

(** A pod under deletion, with and without the finalizer, and a workspace
    with and without a finished backup. *)
Lemma deletion_phase_witness :
  let now := Sample.t0 + Hour in
  let pod fs := Sample.pod PodRunning (Some (Sample.t0 + 50 * Minute)) fs [] in
  let plain := Sample.workspace WorkspacePhaseRunning [] false Sample.t0 None in
  let backedUp :=
    Sample.workspace WorkspacePhaseRunning
      [Sample.cond WorkspaceConditionBackupComplete ConditionTrue
         (Sample.t0 + 55 * Minute) "" ""] false Sample.t0 None in
  let update := updateWorkspaceStatus Sample.finalizer Json.Unmarshal now in
  Phase (WsStatus (update backedUp [pod [Sample.finalizer]]))
  = WorkspacePhaseStopped
  /\ Phase (WsStatus (update plain [pod [Sample.finalizer]]))
     = WorkspacePhaseStopping
  /\ Phase (WsStatus (update plain [pod []])) = WorkspacePhaseStopped.
Proof.
  intros now pod plain backedUp update.
  destruct (deletion_phase Sample.finalizer Json.Unmarshal now backedUp
              (pod [Sample.finalizer]) (Sample.t0 + 50 * Minute) eq_refl)
    as (Hfin & _ & _).
  destruct (deletion_phase Sample.finalizer Json.Unmarshal now plain
              (pod [Sample.finalizer]) (Sample.t0 + 50 * Minute) eq_refl)
    as (Hfin' & _ & _).
  destruct (deletion_phase Sample.finalizer Json.Unmarshal now plain
              (pod []) (Sample.t0 + 50 * Minute) eq_refl)
    as (_ & Hnone & _).
  split; [| split].
  - apply Hfin; [now left | reflexivity].
  - apply Hfin'; [now left | reflexivity].
  - apply Hnone. intros [].
Defined.

(** C1, at the input that breaks it.  A workspace that has failed with
    "out of memory" and is then seen with two pods: the pass replaces the
    stored Failed condition, its message and its transition time, by the
    one about the pods. *)
Theorem failed_latch_overwritten_by_multiple_pods :
  let now := Sample.t0 + Hour in
  let failed := Sample.cond WorkspaceConditionFailed ConditionTrue Sample.t0
                            "" "out of memory" in
  let ws := Sample.workspace WorkspacePhaseRunning [failed] false Sample.t0
                             None in
  let pod := Sample.pod PodRunning None [Sample.finalizer] [] in
  let ws' := updateWorkspaceStatus Sample.finalizer Json.Unmarshal now ws
                                   [pod; pod] in
  conditionPresentAndTrue (Conditions (WsStatus ws)) WorkspaceConditionFailed
  = true
  /\ conditionsOfType WorkspaceConditionFailed (Conditions (WsStatus ws))
     = [failed]
  /\ conditionsOfType WorkspaceConditionFailed (Conditions (WsStatus ws'))
     = [conditionTrue WorkspaceConditionFailed now
          "multiple pods exists - this should never happen"]
  /\ conditionsOfType WorkspaceConditionFailed (Conditions (WsStatus ws'))
     <> conditionsOfType WorkspaceConditionFailed (Conditions (WsStatus ws)).
Proof.
  intros now failed ws pod ws'.
  assert (Hnew : Conditions (WsStatus ws')
                 = [conditionTrue WorkspaceConditionFailed now
                      "multiple pods exists - this should never happen"]).
  { subst ws'.
    apply (failed_latch_many_pods Sample.finalizer Json.Unmarshal now ws pod
             pod [] failed []); try reflexivity.
    discriminate. }
  rewrite Hnew. repeat split. discriminate.
Qed.

(** C2, at the input that breaks it.  One pod that is not being deleted and
    has failed, whose only container has terminated with exit code 1 and a
    log tail that ends in a record: [extractFailure] returns the message of
    the record and the phase Running, the Failed condition takes the
    message, and the pass leaves the workspace in phase Unknown. *)
Theorem terminated_container_phase_unknown :
  let now := Sample.t0 + Hour in
  let logs := Json.text "{'level':'info'}|{'message':'boom','error':'x'}|" in
  let ws := Sample.workspace WorkspacePhaseRunning [] false Sample.t0 None in
  let pod := Sample.pod PodFailed None [Sample.finalizer]
                        [Sample.terminated 1 "Error" logs] in
  let ws' := updateWorkspaceStatus Sample.finalizer Json.Unmarshal now ws
                                   [pod] in
  extractFailure Json.Unmarshal ws pod = ("boom: x", Some WorkspacePhaseRunning)
  /\ conditionsOfType WorkspaceConditionFailed (Conditions (WsStatus ws'))
     = [conditionTrue WorkspaceConditionFailed now "boom: x"]
  /\ Phase (WsStatus ws') = WorkspacePhaseUnknown
  /\ Phase (WsStatus ws') <> WorkspacePhaseRunning.
Proof.
  intros now logs ws pod ws'.
  assert (Hfail : extractFailure Json.Unmarshal ws pod
                  = ("boom: x", Some WorkspacePhaseRunning)).
  { rewrite (extractFailure_terminated Json.Unmarshal ws pod
               (Sample.terminated 1 "Error" logs) []
               {| ExitCode := 1; TerminatedReason := "Error";
                  TerminatedMessage := logs |});
      try (vm_compute; reflexivity); try discriminate.
    - right. split; reflexivity.
    - now left. }
  assert (Hphase : Phase (WsStatus ws') = WorkspacePhaseUnknown).
  { subst ws'.
    rewrite (live_pod_phase Sample.finalizer Json.Unmarshal now ws pod eq_refl).
    reflexivity. }
  split; [exact Hfail |]. split; [| split].
  - subst ws'. rewrite update_single. cbn [Conditions WsStatus].
    unfold singlePodConditions. rewrite Hfail. vm_compute. reflexivity.
  - exact Hphase.
  - rewrite Hphase. discriminate.
Qed.

(** C9 as stated fails: the pass over one pod fills in the runtime
    snapshot of the workspace. *)
Lemma runtime_written_counterexample :
  let ws := Sample.workspace WorkspacePhasePending [] false Sample.t0 None in
  let pod := Sample.pod PodRunning None [] [] in
  let ws' := updateWorkspaceStatus Sample.finalizer Json.Unmarshal
               (Sample.t0 + Minute) ws [pod] in
  Runtime (WsStatus ws) = None
  /\ Runtime (WsStatus ws')
     = Some {| RtNodeName := "node-1"; RtHostIP := "10.0.0.1";
               RtPodIP := "10.1.0.1"; RtPodName := "ws-1-pod" |}
  /\ Runtime (WsStatus ws') <> Runtime (WsStatus ws).
Proof.
  vm_compute. repeat split. discriminate.
Qed.

Lemma fillIn_keeps (field observed : string) :
  field <> "" -> fillIn field observed = field.
Proof.
  intros Hset. unfold fillIn.
  apply String.eqb_neq in Hset. now rewrite Hset.
Qed.

Lemma updateRuntime_keeps (old : option WorkspaceRuntimeStatus) (pod : Pod) :
  keepsSetFields old (updateRuntime old pod).
Proof.
  intros rt ->. cbn. repeat split; apply fillIn_keeps.
Qed.

(** C9, as amended.  A pass of the status reconciler changes the phase, the
    condition set and, over exactly one pod, the runtime snapshot, whose
    fields are filled in once and kept; the metadata, the spec and the
    headless flag stay as they are.  A pass of the timeout reconciler
    either leaves the cluster alone or hands the fetched workspace, changed
    in its condition set only, to the status update. *)
Theorem reconcile_frame :
  (forall finalizer unmarshal now ws pods,
     let ws' := updateWorkspaceStatus finalizer unmarshal now ws pods in
     Meta ws' = Meta ws
     /\ Spec ws' = Spec ws
     /\ Headless (WsStatus ws') = Headless (WsStatus ws)
     /\ match pods with
        | [pod] =>
            Runtime (WsStatus ws')
            = Some (updateRuntime (Runtime (WsStatus ws)) pod)
            /\ keepsSetFields (Runtime (WsStatus ws))
                              (updateRuntime (Runtime (WsStatus ws)) pod)
        | _ => Runtime (WsStatus ws') = Runtime (WsStatus ws)
        end)
  /\ (forall (WorkspaceActivity : Type)
             (workspaceTimedOut :
                Time -> Workspace -> WorkspaceTimeoutConfiguration
                -> WorkspaceActivity -> string * option Error)
             (C : Type) (client : Client C)
             (r : TimeoutReconciler WorkspaceActivity) now (cluster : C) req,
        let cluster' := snd (Reconcile workspaceTimedOut r now cluster req) in
        cluster' = cluster
        \/ exists ws conds,
             Get cluster req = inl ws
             /\ cluster' = fst (StatusUpdate cluster (setConditions ws conds))
             /\ Meta (setConditions ws conds) = Meta ws
             /\ Spec (setConditions ws conds) = Spec ws
             /\ Phase (WsStatus (setConditions ws conds)) = Phase (WsStatus ws)
             /\ Headless (WsStatus (setConditions ws conds))
                = Headless (WsStatus ws)
             /\ Runtime (WsStatus (setConditions ws conds))
                = Runtime (WsStatus ws)).
Proof.
  split.
  - intros finalizer unmarshal now ws pods ws'. subst ws'.
    destruct pods as [| pod [| pod' pods]].
    + destruct (update_none finalizer unmarshal now ws) as [H | H];
        rewrite H; cbv iota; repeat split.
    + rewrite update_single. cbv iota.
      repeat (split; [reflexivity |]). apply updateRuntime_keeps.
    + cbv iota. repeat split.
  - intros WorkspaceActivity workspaceTimedOut C client r now cluster req
           cluster'. subst cluster'.
    destruct (Reconcile_writes workspaceTimedOut r now cluster req)
      as [Hsame | (ws & timedout & Hget & _ & _ & Hwrite)].
    + now left.
    + right. exists ws. eexists. split; [exact Hget |].
      split; [exact Hwrite |]. repeat split.
Qed.

(** ** The log scanner *)

(** *** Line feeds, indices and slices *)

Lemma prefix_empty (s : string) : prefix "" s = true.
Proof. now destruct s. Qed.

Lemma prefix_newline (c : ascii) (s : string) :
  prefix newline (String c s) = (c =? "010")%char.
Proof.
  change (prefix newline (String c s))
    with (if ascii_dec "010" c then prefix "" s else false).
  destruct (ascii_dec "010" c) as [<- | Hne].
  - now rewrite prefix_empty.
  - symmetry. apply Ascii.eqb_neq. congruence.
Qed.

Lemma noNewline_cons (c : ascii) (s : string) :
  noNewline (String c s) <-> (c =? "010")%char = false /\ noNewline s.
Proof. unfold noNewline. cbn. apply orb_false_iff. Qed.

Lemma lastIndexFrom_none (b : string) (i acc : Z) :
  noNewline b -> Str.lastIndexFrom b newline i acc = acc.
Proof.
  revert i acc. induction b as [| c b IH]; intros i acc Hb.
  - reflexivity.
  - apply noNewline_cons in Hb as [Hc Hb].
    cbn [Str.lastIndexFrom]. rewrite prefix_newline, Hc. now apply IH.
Qed.

Lemma lastIndexFrom_last (a b : string) (i acc : Z) :
  noNewline b ->
  Str.lastIndexFrom (a ++ newline ++ b) newline i acc = i + Str.len a.
Proof.
  intros Hb. revert i acc. induction a as [| c a IH]; intros i acc.
  - change ("" ++ newline ++ b) with (String "010" b).
    cbn [Str.lastIndexFrom]. rewrite prefix_newline, Ascii.eqb_refl.
    rewrite lastIndexFrom_none by exact Hb. unfold Str.len. cbn. lia.
  - change (String c a ++ newline ++ b) with (String c (a ++ newline ++ b)).
    cbn [Str.lastIndexFrom]. rewrite IH. unfold Str.len. cbn [String.length].
    lia.
Qed.

Lemma LastIndex_none (b : string) :
  noNewline b -> Str.LastIndex b newline = -1.
Proof. apply lastIndexFrom_none. Qed.

Lemma LastIndex_last (a b : string) :
  noNewline b -> Str.LastIndex (a ++ newline ++ b) newline = Str.len a.
Proof. intros Hb. unfold Str.LastIndex. now rewrite lastIndexFrom_last. Qed.

Lemma substring_front (a b : string) :
  substring 0 (String.length a) (a ++ b) = a.
Proof.
  induction a as [| c a IH]; cbn.
  - now destruct b.
  - now rewrite IH.
Qed.

Lemma substring_skip (a b : string) (m : nat) :
  substring (String.length a) m (a ++ b) = substring 0 m b.
Proof. induction a as [| c a IH]; cbn; [reflexivity | exact IH]. Qed.

Lemma len_nonneg (s : string) : 0 <= Str.len s.
Proof. unfold Str.len. lia. Qed.

Lemma len_app (a b : string) : Str.len (a ++ b) = Str.len a + Str.len b.
Proof. unfold Str.len. rewrite length_app_s. lia. Qed.

Lemma slice_front (a b : string) : Str.slice (a ++ b) 0 (Str.len a) = a.
Proof.
  unfold Str.slice, Str.len. rewrite Z.sub_0_r, Nat2Z.id.
  apply substring_front.
Qed.

Lemma slice_middle (a b c : string) :
  Str.slice (a ++ b ++ c) (Str.len a) (Str.len (a ++ b)) = b.
Proof.
  unfold Str.slice. rewrite len_app.
  replace (Str.len a + Str.len b - Str.len a) with (Str.len b) by lia.
  unfold Str.len. rewrite !Nat2Z.id, substring_skip.
  apply substring_front.
Qed.

(** *** The text and its lines *)

Lemma unlines_snoc (ls : list string) (l : string) :
  unlines (ls ++ [l])%list = unlines ls ++ l ++ newline.
Proof.
  induction ls as [| x ls IH]; cbn [List.app unlines].
  - reflexivity.
  - now rewrite IH, !app_assoc_s.
Qed.

Lemma length_unlines (ls : list string) :
  (List.length ls <= String.length (unlines ls))%nat.
Proof.
  induction ls as [| x ls IH]; cbn; [lia |].
  rewrite !length_app_s. cbn. lia.
Qed.

Lemma splitLines_spec (s : string) :
  s = unlines (fst (splitLines s)) ++ snd (splitLines s)
  /\ Forall noNewline (fst (splitLines s))
  /\ noNewline (snd (splitLines s)).
Proof.
  induction s as [| c r IH]; cbn [splitLines].
  - repeat split. constructor.
  - destruct IH as (Heq & Hls & Htail).
    destruct (splitLines r) as [ls tail]. cbn [fst snd] in *.
    destruct (c =? "010")%char eqn:Hc.
    + apply Ascii.eqb_eq in Hc. subst c. cbn [fst snd]. repeat split.
      * cbn. now rewrite <- Heq.
      * constructor; [reflexivity | exact Hls].
      * exact Htail.
    + destruct ls as [| l ls']; cbn [fst snd].
      * repeat split.
        -- cbn in *. now rewrite Heq.
        -- constructor.
        -- apply noNewline_cons. now split.
      * inversion Hls as [| ? ? Hl Hls']; subst. repeat split.
        -- constructor; [| exact Hls']. apply noNewline_cons. now split.
        -- exact Htail.
Qed.

Lemma splitLines_tail (tail : string) :
  noNewline tail -> splitLines tail = ([], tail).
Proof.
  induction tail as [| c tail IH]; intros Htail; [reflexivity |].
  apply noNewline_cons in Htail as [Hc Htail].
  cbn [splitLines]. now rewrite (IH Htail), Hc.
Qed.

(** The lines and the rest of a text are the ones it is made of. *)
Lemma splitLines_unlines (ls : list string) (tail : string) :
  Forall noNewline ls -> noNewline tail ->
  splitLines (unlines ls ++ tail) = (ls, tail).
Proof.
  intros Hls Htail. induction Hls as [| l ls Hl Hls IH].
  - now apply splitLines_tail.
  - cbn [unlines]. rewrite !app_assoc_s.
    induction l as [| c l IHl].
    + change ("" ++ newline ++ unlines ls ++ tail)
        with (String "010" (unlines ls ++ tail)).
      cbn [splitLines]. now rewrite IH.
    + apply noNewline_cons in Hl as [Hc Hl].
      change (String c l ++ newline ++ unlines ls ++ tail)
        with (String c (l ++ newline ++ unlines ls ++ tail)).
      cbn [splitLines]. now rewrite (IHl Hl), Hc.
Qed.

Lemma terminatedLines_unlines (ls : list string) (tail : string) :
  Forall noNewline ls -> noNewline tail ->
  terminatedLines (unlines ls ++ tail) = scannedLines ls.
Proof.
  intros Hls Htail. unfold terminatedLines.
  now rewrite splitLines_unlines.
Qed.

Lemma scannedLines_snoc (l0 : string) (ls : list string) (l : string) :
  scannedLines (List.app (l0 :: ls) [l])
  = List.app (scannedLines (l0 :: ls)) [newline ++ l].
Proof.
  unfold scannedLines. cbn [List.app].
  now rewrite map_app, List.app_assoc.
Qed.

(** *** The loop and the lines *)

Section LogScanner.

Variable unmarshal : Unmarshaler.

(** One iteration of the loop. *)
Lemma scanLog_step (fuel : nat) (logs : string) (idx : Z) (msg : LogMsg) :
  0 < idx ->
  let found := Str.LastIndex (Str.slice logs 0 idx) newline in
  let nidx := if found <? 0 then 0 else found in
  scanLog unmarshal (S fuel) logs idx msg
  = let (msg', ok) := unmarshal (Str.slice logs nidx idx) msg in
    if ok && negb (MsgMessage msg' =? "")%string
    then Returned (failureText msg')
    else scanLog unmarshal fuel logs nidx msg'.
Proof.
  intros Hidx found nidx. cbn [scanLog].
  destruct (Z.gtb_spec idx 0) as [_ | Hle]; [| lia].
  fold found. fold nidx.
  destruct (unmarshal (Str.slice logs nidx idx) msg) as [msg' ok].
  unfold failureText.
  destruct ok; cbn [negb andb]; [| reflexivity].
  destruct (MsgMessage msg' =? "")%string; cbn [negb]; [reflexivity |].
  now destruct (MsgError msg' =? "")%string.
Qed.

Lemma scanLog_done (fuel : nat) (logs : string) (idx : Z) (msg : LogMsg) :
  idx <= 0 -> scanLog unmarshal (S fuel) logs idx msg = Fallthrough.
Proof.
  intros Hidx. cbn [scanLog].
  destruct (Z.gtb_spec idx 0) as [Hgt | _]; [lia | reflexivity].
Qed.

Lemma scanResult_cons (line : string) (rest : list string) (msg : LogMsg) :
  scanResult (scanLines unmarshal (line :: rest) msg)
  = let (msg', ok) := unmarshal line msg in
    if ok && negb (MsgMessage msg' =? "")%string
    then Returned (failureText msg')
    else scanResult (scanLines unmarshal rest msg').
Proof.
  cbn [scanLines]. destruct (unmarshal line msg) as [msg' ok].
  now destruct (ok && negb (MsgMessage msg' =? "")%string).
Qed.

(** The loop, entered at the line feed that ends the line [l], visits the
    lines before it from the last to the first. *)
Lemma scanLog_lines (ls : list string) :
  forall (l rest : string) (msg : LogMsg) (fuel : nat),
    Forall noNewline ls ->
    noNewline l ->
    (List.length ls + 2 <= fuel)%nat ->
    scanLog unmarshal fuel (unlines ls ++ l ++ newline ++ rest)
            (Str.len (unlines ls ++ l)) msg
    = scanResult
        (scanLines unmarshal (rev (scannedLines (List.app ls [l]))) msg).
Proof.
  induction ls as [| l0 ls0 IH] using rev_ind;
    intros l rest msg fuel Hls Hl Hfuel.
  - destruct fuel as [| fuel]; [cbn in Hfuel; lia |].
    cbn [unlines List.app scannedLines map].
    change ("" ++ l) with l. change ("" ++ l ++ newline ++ rest)
      with (l ++ newline ++ rest).
    destruct l as [| c l'].
    + now rewrite scanLog_done by (cbn; lia).
    + set (l := String c l') in *.
      assert (Hpos : 0 < Str.len l) by (unfold Str.len; cbn; lia).
      rewrite (scanLog_step fuel _ _ msg Hpos). cbv zeta.
      rewrite slice_front, (LastIndex_none l Hl).
      change (-1 <? 0) with true. cbv iota.
      rewrite slice_front.
      change (rev (List.app (if (l =? "")%string then [] else [l]) []))
        with [l].
      rewrite scanResult_cons.
      destruct (unmarshal l msg) as [msg' ok].
      destruct (ok && negb (MsgMessage msg' =? "")%string); [reflexivity |].
      destruct fuel as [| fuel]; [cbn in Hfuel; lia |].
      now rewrite scanLog_done by lia.
  - destruct fuel as [| fuel]; [cbn in Hfuel; lia |].
    rewrite List.length_app in Hfuel. cbn [List.length] in Hfuel.
    rewrite unlines_snoc.
    set (a := unlines ls0 ++ l0).
    assert (Hlogs : (unlines ls0 ++ l0 ++ newline) ++ l ++ newline ++ rest
                    = a ++ (newline ++ l) ++ newline ++ rest)
      by (subst a; now rewrite !app_assoc_s).
    assert (Hidx : (unlines ls0 ++ l0 ++ newline) ++ l
                   = a ++ newline ++ l)
      by (subst a; now rewrite !app_assoc_s).
    rewrite Hlogs, Hidx.
    assert (Hpos : 0 < Str.len (a ++ newline ++ l)).
    { rewrite !len_app. pose proof (len_nonneg a). pose proof (len_nonneg l).
      change (Str.len newline) with 1. lia. }
    rewrite (scanLog_step fuel _ _ msg Hpos). cbv zeta.
    assert (Hfront : Str.slice (a ++ (newline ++ l) ++ newline ++ rest) 0
                               (Str.len (a ++ newline ++ l))
                     = a ++ newline ++ l).
    { rewrite <- (app_assoc_s a (newline ++ l)). apply slice_front. }
    rewrite Hfront, (LastIndex_last a l Hl).
    destruct (Z.ltb_spec (Str.len a) 0) as [Hneg | _];
      [pose proof (len_nonneg a); lia |].
    rewrite slice_middle.
    assert (Hscan : rev (scannedLines (List.app (List.app ls0 [l0]) [l]))
                    = (newline ++ l)
                        :: rev (scannedLines (List.app ls0 [l0]))).
    { destruct (List.app ls0 [l0]) as [| x xs] eqn:Hne.
      - now destruct ls0.
      - now rewrite scannedLines_snoc, rev_app_distr. }
    rewrite Hscan, scanResult_cons.
    destruct (unmarshal (newline ++ l) msg) as [msg' ok].
    destruct (ok && negb (MsgMessage msg' =? "")%string); [reflexivity |].
    subst a.
    replace ((unlines ls0 ++ l0) ++ (newline ++ l) ++ newline ++ rest)
      with (unlines ls0 ++ l0 ++ newline ++ (l ++ newline ++ rest))
      by now rewrite !app_assoc_s.
    apply Forall_app in Hls as [Hls0 Hl0].
    apply IH; [exact Hls0 | now inversion Hl0 | lia].
Qed.

End LogScanner.

Section LogScannerClaims.

Variable unmarshal : Unmarshaler.

(** The loop over a whole text: the lines that end in a line feed, from
    the last to the first. *)
Lemma scanLog_text (logs : string) :
  scanLog unmarshal (S (String.length logs)) logs
          (Str.LastIndex logs newline) emptyMsg
  = scanResult (scanLines unmarshal (rev (terminatedLines logs)) emptyMsg).
Proof.
  unfold terminatedLines.
  destruct (splitLines_spec logs) as (Heq & Hls & Htail).
  destruct (splitLines logs) as [ls tail]. cbn [fst snd] in *.
  destruct ls as [| l0 ls0] using rev_ind.
  - cbn [unlines] in Heq. change ("" ++ tail) with tail in Heq. subst logs.
    rewrite (LastIndex_none tail Htail).
    now rewrite scanLog_done by lia.
  - clear IHls0. apply Forall_app in Hls as [Hls0 Hl0].
    assert (Hl : noNewline l0) by now inversion Hl0.
    rewrite unlines_snoc in Heq.
    assert (Hlogs : logs = unlines ls0 ++ l0 ++ newline ++ tail)
      by (rewrite Heq; now rewrite !app_assoc_s).
    assert (Hlast : Str.LastIndex logs newline = Str.len (unlines ls0 ++ l0)).
    { rewrite Hlogs, <- (app_assoc_s (unlines ls0) l0).
      now apply LastIndex_last. }
    rewrite Hlast. rewrite Hlogs at 2.
    apply scanLog_lines; [exact Hls0 | exact Hl |].
    rewrite Hlogs, !length_app_s. pose proof (length_unlines ls0).
    cbn. lia.
Qed.

(** The fuel of [extractFailureFromLogs] is never used up. *)
Lemma scanLog_fuel (logs : string) :
  scanLog unmarshal (S (String.length logs)) logs
          (Str.LastIndex logs newline) emptyMsg <> OutOfFuel.
Proof.
  rewrite scanLog_text.
  now destruct (scanLines unmarshal (rev (terminatedLines logs)) emptyMsg).
Qed.

(** [extractFailureFromLogs] over the lines of the text. *)
Lemma extractFailureFromLogs_lines (logs : string) :
  extractFailureFromLogs unmarshal logs
  = match scanLines unmarshal (rev (terminatedLines logs)) emptyMsg with
    | Some text => text
    | None => logs
    end.
Proof.
  unfold extractFailureFromLogs. rewrite scanLog_text.
  now destruct (scanLines unmarshal (rev (terminatedLines logs)) emptyMsg).
Qed.




End LogScannerClaims.



(** The record of the scanner outlives the iterations of its loop: the
    error of a skipped later line is reported with the message of an
    earlier one. *)
Lemma stale_error_example :
  extractFailureFromLogs Json.Unmarshal
    (Json.text "{'message':'m'}|{'error':'e'}|")
  = "m: e".
Proof. vm_compute. reflexivity. Qed.

(** A pass over one pod and a pass of the timeout reconciler over a
    workspace whose startup has timed out. *)
Lemma reconcile_frame_witness :
  let ws := Sample.workspace WorkspacePhasePending [] false Sample.t0 None in
  let pod := Sample.pod PodRunning None [] [] in
  let ws' := updateWorkspaceStatus Sample.finalizer Json.Unmarshal
               (Sample.t0 + Minute) ws [pod] in
  let r := NewTimeoutReconciler
             {| Timeouts := Sample.timeouts;
                HeartbeatInterval := 4 * Minute |} tt in
  let cluster' :=
    snd (Reconcile Sample.timedOut r (Sample.t0 + Hour) (Sample.cluster ws)
                   Sample.request) in
  (Meta ws' = Meta ws /\ Spec ws' = Spec ws
   /\ Headless (WsStatus ws') = Headless (WsStatus ws))
  /\ map Meta (stored cluster') = [Meta ws]
  /\ map Spec (stored cluster') = [Spec ws]
  /\ map (fun w => Phase (WsStatus w)) (stored cluster')
     = [WorkspacePhasePending]
  /\ map (fun w => map Type_ (Conditions (WsStatus w))) (stored cluster')
     = [[WorkspaceConditionTimeout]].
Proof.
  intros ws pod ws' r cluster'.
  destruct reconcile_frame as [Hstatus Htimeout].
  destruct (Hstatus Sample.finalizer Json.Unmarshal (Sample.t0 + Minute) ws
              [pod]) as (Hmeta & Hspec & Hheadless & _).
  split; [now repeat split |].
  destruct (Htimeout unit Sample.timedOut MemCluster memClient r
              (Sample.t0 + Hour) (Sample.cluster ws) Sample.request)
    as [Hsame | (w & conds & Hget & Hwrite & _)].
  - vm_compute in Hsame. discriminate.
  - vm_compute. repeat split.
Defined.

(** * Further properties *)

(** ** The condition set, continued *)

Lemma statusEqb_eq (a b : ConditionStatus) : statusEqb a b = true <-> a = b.
Proof. destruct a, b; cbn; split; congruence. Qed.

Lemma AddUniqueCondition_present (conds : list Condition) (cond : Condition) :
  Status cond = ConditionTrue ->
  conditionPresentAndTrue (AddUniqueCondition conds cond) (Type_ cond) = true.
Proof.
  intros Htrue. unfold conditionPresentAndTrue.
  induction conds as [| c rest IH]; cbn.
  - now rewrite String.eqb_refl, Htrue.
  - destruct (String.eqb_spec (Type_ c) (Type_ cond)) as [Heq | Hne].
    + destruct (statusEqb (Status c) (Status cond)) eqn:Hst; cbn.
      * destruct (Message c =? Message cond)%string; cbn.
        -- apply statusEqb_eq in Hst. rewrite Heq, String.eqb_refl.
           now rewrite Hst, Htrue.
        -- now rewrite String.eqb_refl, Htrue.
      * now rewrite String.eqb_refl, Htrue.
    + cbn. rewrite IH. apply orb_true_r.
Qed.

(** After an upsert the first stored condition of the type carries the
    status and the message that were added. *)
Lemma AddUniqueCondition_first (conds : list Condition) (cond : Condition) :
  exists c more,
    conditionsOfType (Type_ cond) (AddUniqueCondition conds cond) = c :: more
    /\ Status c = Status cond /\ Message c = Message cond.
Proof.
  unfold conditionsOfType.
  induction conds as [| x rest (c & more & Hc & Hs & Hm)]; cbn.
  - rewrite String.eqb_refl. now exists cond, [].
  - destruct (String.eqb_spec (Type_ x) (Type_ cond)) as [Heq | Hne].
    + destruct (statusEqb (Status x) (Status cond)) eqn:Hst; cbn.
      * destruct (String.eqb_spec (Message x) (Message cond)) as [Hmsg | _];
          cbn.
        -- rewrite Heq, String.eqb_refl. apply statusEqb_eq in Hst.
           now eexists x, _.
        -- rewrite String.eqb_refl. now eexists cond, _.
      * rewrite String.eqb_refl. now eexists cond, _.
    + cbn. apply String.eqb_neq in Hne. rewrite Hne. now exists c, more.
Qed.

(** An upsert of what is stored already changes nothing. *)
Lemma AddUniqueCondition_noop (conds : list Condition) (cond c : Condition)
    (more : list Condition) :
  conditionsOfType (Type_ cond) conds = c :: more ->
  Status c = Status cond -> Message c = Message cond ->
  AddUniqueCondition conds cond = conds.
Proof.
  unfold conditionsOfType. intros Hfirst Hs Hm.
  induction conds as [| x rest IH]; cbn in *; [discriminate |].
  destruct (Type_ x =? Type_ cond)%string.
  - injection Hfirst as -> _.
    rewrite Hs, Hm, String.eqb_refl.
    now replace (statusEqb (Status cond) (Status cond)) with true
      by (symmetry; now apply statusEqb_eq).
  - now rewrite IH.
Qed.

(** ** The status reconciler, continued *)

Lemma fillIn_idempotent (field observed : string) :
  fillIn (fillIn field observed) observed = fillIn field observed.
Proof.
  unfold fillIn.
  destruct (field =? "")%string eqn:Hf; cbn [andb].
  - destruct (observed =? "")%string eqn:Ho; cbn [negb].
    + now rewrite Hf.
    + now rewrite Ho.
  - now rewrite Hf.
Qed.

Lemma updateRuntime_idempotent (rt : option WorkspaceRuntimeStatus)
    (pod : Pod) :
  updateRuntime (Some (updateRuntime rt pod)) pod = updateRuntime rt pod.
Proof.
  unfold updateRuntime. cbn [RtNodeName RtHostIP RtPodIP RtPodName].
  now rewrite !fillIn_idempotent.
Qed.

Section StatusReconcilerMore.

Variable gitpodPodFinalizerName : string.
Variable unmarshal : Unmarshaler.

Let update := updateWorkspaceStatus gitpodPodFinalizerName unmarshal.

(** Failed=True after a pass over one pod: it was there, or the pass found
    a failure. *)
Lemma single_pod_failed_present now ws pod :
  conditionPresentAndTrue (singlePodConditions unmarshal now ws pod)
                          WorkspaceConditionFailed
  = conditionPresentAndTrue (Conditions (WsStatus ws))
                            WorkspaceConditionFailed
    || negb (fst (extractFailure unmarshal ws pod) =? "")%string.
Proof.
  unfold singlePodConditions.
  rewrite (conditionPresentAndTrue_add_other WorkspaceConditionFailed
             (conditionTrue WorkspaceConditionDeployed now ""))
    by discriminate.
  destruct (conditionPresentAndTrue (Conditions (WsStatus ws))
                                    WorkspaceConditionFailed) eqn:Hwas;
    destruct (fst (extractFailure unmarshal ws pod) =? "")%string;
    cbn [negb andb orb].
  - now rewrite conditionPresentAndTrue_add_other by discriminate.
  - now rewrite conditionPresentAndTrue_add_other by discriminate.
  - now rewrite conditionPresentAndTrue_add_other by discriminate.
  - apply (AddUniqueCondition_present _
             (conditionTrue WorkspaceConditionFailed now _)).
    reflexivity.
Qed.

(** X1.  No pod: an unset or Pending phase becomes Pending, every other
    phase becomes Stopped; nothing else changes, and a second pass changes
    nothing at all. *)
Theorem no_pod_pass now now' ws :
  Phase (WsStatus (update now ws []))
  = match Phase (WsStatus ws) with
    | PhaseUnset | WorkspacePhasePending => WorkspacePhasePending
    | _ => WorkspacePhaseStopped
    end
  /\ Conditions (WsStatus (update now ws [])) = Conditions (WsStatus ws)
  /\ Runtime (WsStatus (update now ws [])) = Runtime (WsStatus ws)
  /\ update now' (update now ws []) [] = update now ws [].
Proof.
  subst update. unfold updateWorkspaceStatus.
  destruct ws as [m sp [ph cs h rt]]. destruct ph; cbn; repeat split.
Qed.

(** X2.  More than one pod: the phase and the runtime snapshot stay as they
    are, Failed=True is in the condition set afterwards, and the conditions
    of the other types are untouched. *)
Theorem many_pods_pass now ws pod pod' pods :
  let ws' := update now ws (pod :: pod' :: pods) in
  Phase (WsStatus ws') = Phase (WsStatus ws)
  /\ Runtime (WsStatus ws') = Runtime (WsStatus ws)
  /\ conditionPresentAndTrue (Conditions (WsStatus ws'))
                             WorkspaceConditionFailed = true
  /\ forall tpe, tpe <> WorkspaceConditionFailed ->
       conditionsOfType tpe (Conditions (WsStatus ws'))
       = conditionsOfType tpe (Conditions (WsStatus ws)).
Proof.
  subst update. cbv zeta. unfold updateWorkspaceStatus.
  cbn [setConditions setStatus WsStatus Phase Runtime Conditions].
  repeat split.
  - apply (AddUniqueCondition_present _
             (conditionTrue WorkspaceConditionFailed now _)).
    reflexivity.
  - intros tpe Hne. apply conditionsOfType_add_other. cbn. congruence.
Qed.

(** X3.  One pod: Deployed=True is in the condition set afterwards, and the
    conditions of the types other than Deployed and Failed are untouched. *)
Theorem single_pod_deployed now ws pod :
  let ws' := update now ws [pod] in
  conditionPresentAndTrue (Conditions (WsStatus ws'))
                          WorkspaceConditionDeployed = true
  /\ forall tpe, tpe <> WorkspaceConditionDeployed ->
                 tpe <> WorkspaceConditionFailed ->
       conditionsOfType tpe (Conditions (WsStatus ws'))
       = conditionsOfType tpe (Conditions (WsStatus ws)).
Proof.
  subst update. cbv zeta. rewrite update_single.
  cbn [Conditions WsStatus]. unfold singlePodConditions.
  split.
  - destruct (negb _ && negb _).
    + rewrite conditionPresentAndTrue_add_other by discriminate.
      apply (AddUniqueCondition_present _
               (conditionTrue WorkspaceConditionDeployed now "")).
      reflexivity.
    + apply (AddUniqueCondition_present _
               (conditionTrue WorkspaceConditionDeployed now "")).
      reflexivity.
  - intros tpe Hd Hf. destruct (negb _ && negb _).
    + rewrite conditionsOfType_add_other by (cbn; congruence).
      apply conditionsOfType_add_other. cbn. congruence.
    + apply conditionsOfType_add_other. cbn. congruence.
Qed.

(** X4.  One pod: Failed=True is in the condition set afterwards exactly
    when it was there before or [extractFailure] reports a failure text. *)
Theorem single_pod_failure_committed now ws pod :
  conditionPresentAndTrue (Conditions (WsStatus (update now ws [pod])))
                          WorkspaceConditionFailed
  = conditionPresentAndTrue (Conditions (WsStatus ws))
                            WorkspaceConditionFailed
    || negb (fst (extractFailure unmarshal ws pod) =? "")%string.
Proof.
  subst update. rewrite update_single. cbn [Conditions WsStatus].
  apply single_pod_failed_present.
Qed.

(** X5.  Idempotence: a second pass over the same pod, at whatever time,
    changes nothing. *)
Theorem single_pod_idempotent now now' ws pod :
  update now' (update now ws [pod]) [pod] = update now ws [pod].
Proof.
  subst update. rewrite (update_single _ _ now ws pod).
  set (conds := singlePodConditions unmarshal now ws pod).
  set (ws1 := {| Meta := Meta ws; Spec := Spec ws; WsStatus := _ |}).
  rewrite (update_single _ _ now' ws1 pod).
  assert (Hconds : singlePodConditions unmarshal now' ws1 pod = conds).
  { unfold singlePodConditions at 1.
    rewrite (extractFailure_reads_headless unmarshal ws ws1) by reflexivity.
    change (Conditions (WsStatus ws1)) with conds.
    assert (Hdeployed :
              AddUniqueCondition conds
                (conditionTrue WorkspaceConditionDeployed now' "") = conds).
    { destruct (AddUniqueCondition_first (Conditions (WsStatus ws))
                  (conditionTrue WorkspaceConditionDeployed now ""))
        as (c & more & Hfirst & Hs & Hm).
      apply (AddUniqueCondition_noop conds _ c more); [| exact Hs | exact Hm].
      subst conds. unfold singlePodConditions.
      destruct (negb _ && negb _); [| exact Hfirst].
      rewrite conditionsOfType_add_other by discriminate. exact Hfirst. }
    rewrite Hdeployed.
    subst conds. rewrite single_pod_failed_present.
    destruct (conditionPresentAndTrue (Conditions (WsStatus ws))
                                      WorkspaceConditionFailed);
      destruct (fst (extractFailure unmarshal ws pod) =? "")%string;
      reflexivity. }
  rewrite Hconds. subst ws1.
  cbn [Meta Spec WsStatus Headless Runtime].
  rewrite updateRuntime_idempotent.
  reflexivity.
Qed.

(** X6.  A pass over at most one pod leaves a phase: the phase is never
    unset afterwards. *)
Theorem pass_sets_phase now ws pods :
  (List.length pods <= 1)%nat ->
  Phase (WsStatus (update now ws pods)) <> PhaseUnset.
Proof.
  intros Hlen. destruct pods as [| pod [| pod' pods]];
    [| | cbn in Hlen; lia].
  - destruct (no_pod_pass now now ws) as [Hphase _]. rewrite Hphase.
    destruct (Phase (WsStatus ws)); discriminate.
  - subst update. destruct (DeletionTimestamp pod) as [deleted |] eqn:Hdel.
    + rewrite (deleted_pod_phase _ _ now ws pod deleted Hdel).
      destruct (existsb _ _); [| discriminate].
      destruct (disposalDone _); discriminate.
    + rewrite (live_pod_phase _ _ now ws pod Hdel).
      destruct (PodPhase_ (PodStatus_ pod));
        repeat match goal with
               | |- context [if ?b then _ else _] => destruct b
               end; discriminate.
Qed.

(** X7.  A pod that is not being deleted never stops a workspace: the phase
    after the pass is not Stopped, and it is Stopping only for a headless
    workspace whose pod has succeeded or failed. *)
Theorem live_pod_never_stopped now ws pod :
  DeletionTimestamp pod = None ->
  let phase := Phase (WsStatus (update now ws [pod])) in
  phase <> WorkspacePhaseStopped
  /\ (phase = WorkspacePhaseStopping ->
      Headless (WsStatus ws) = true
      /\ (PodPhase_ (PodStatus_ pod) = PodSucceeded
          \/ PodPhase_ (PodStatus_ pod) = PodFailed)).
Proof.
  intros Hlive phase. subst phase update.
  rewrite (live_pod_phase _ _ now ws pod Hlive).
  destruct (PodPhase_ (PodStatus_ pod));
    repeat match goal with
           | |- context [if ?b then _ else _] => destruct b eqn:?
           end;
    split; try discriminate; intros; try discriminate; auto.
Qed.

End StatusReconcilerMore.

Lemma many_pods_pass_witness :
  let ws := Sample.workspace WorkspacePhaseRunning
              [Sample.cond WorkspaceConditionDeployed ConditionTrue Sample.t0
                           "" ""] false Sample.t0 None in
  let pod := Sample.pod PodRunning None [] [] in
  let ws' := updateWorkspaceStatus Sample.finalizer Json.Unmarshal
               (Sample.t0 + Minute) ws [pod; pod; pod] in
  Phase (WsStatus ws') = WorkspacePhaseRunning
  /\ conditionPresentAndTrue (Conditions (WsStatus ws'))
                             WorkspaceConditionFailed = true
  /\ conditionsOfType WorkspaceConditionDeployed (Conditions (WsStatus ws'))
     = Conditions (WsStatus ws).
Proof.
  intros ws pod ws'.
  destruct (many_pods_pass Sample.finalizer Json.Unmarshal
              (Sample.t0 + Minute) ws pod pod [pod])
    as (Hphase & _ & Hfailed & Hothers).
  split; [exact Hphase |]. split; [exact Hfailed |].
  apply (Hothers WorkspaceConditionDeployed). discriminate.
Defined.

Lemma single_pod_deployed_witness :
  let closed := Sample.cond WorkspaceConditionClosed ConditionTrue Sample.t0
                            "" "" in
  let ws := Sample.workspace WorkspacePhasePending [closed] false Sample.t0
                             None in
  let pod := Sample.pod PodRunning None [] [] in
  let ws' := updateWorkspaceStatus Sample.finalizer Json.Unmarshal
               (Sample.t0 + Minute) ws [pod] in
  conditionPresentAndTrue (Conditions (WsStatus ws'))
                          WorkspaceConditionDeployed = true
  /\ conditionsOfType WorkspaceConditionClosed (Conditions (WsStatus ws'))
     = [closed].
Proof.
  intros closed ws pod ws'.
  destruct (single_pod_deployed Sample.finalizer Json.Unmarshal
              (Sample.t0 + Minute) ws pod) as (Hdeployed & Hothers).
  split; [exact Hdeployed |].
  apply (Hothers WorkspaceConditionClosed); discriminate.
Defined.

Lemma pass_sets_phase_witness :
  Phase (WsStatus (updateWorkspaceStatus Sample.finalizer Json.Unmarshal
                     Sample.t0
                     (Sample.workspace PhaseUnset [] false Sample.t0 None)
                     [Sample.pod PodPhaseUnset None [] []]))
  <> PhaseUnset.
Proof.
  apply pass_sets_phase. cbn. lia.
Defined.

Lemma live_pod_never_stopped_witness :
  let ws := Sample.workspace WorkspacePhaseRunning [] true Sample.t0 None in
  let pod := Sample.pod PodSucceeded None [Sample.finalizer] [] in
  let phase := Phase (WsStatus (updateWorkspaceStatus Sample.finalizer
                                  Json.Unmarshal Sample.t0 ws [pod])) in
  phase <> WorkspacePhaseStopped
  /\ (phase = WorkspacePhaseStopping -> Headless (WsStatus ws) = true).
Proof.
  intros ws pod phase.
  destruct (live_pod_never_stopped Sample.finalizer Json.Unmarshal Sample.t0
              ws pod eq_refl) as (Hnot & Hstopping).
  split; [exact Hnot |]. intros H. now apply Hstopping.
Defined.

(** ** The failure extractor, continued *)

Section ExtractorMore.

Variable unmarshal : Unmarshaler.

Lemma containerFailure_quiet headless pod cs :
  quietContainer cs -> containerFailure unmarshal headless pod cs = None.
Proof.
  intros (Hwait & Hterm & Hlast). unfold containerFailure.
  rewrite Hterm, Hlast.
  destruct (Waiting (State cs)) as [w |]; [| reflexivity].
  destruct (Hwait w eq_refl) as [H1 H2].
  apply String.eqb_neq in H1, H2. now rewrite H1, H2.
Qed.

(** X8.  A pod that reports no failure of its own and whose containers
    neither wait on a failed image pull nor have a terminated state yields
    no failure text and no phase. *)
Theorem extractFailure_healthy ws pod :
  podFailedWithReason pod = false ->
  Forall quietContainer (ContainerStatuses (PodStatus_ pod)) ->
  extractFailure unmarshal ws pod = ("", None).
Proof.
  intros Hpod Hquiet. unfold extractFailure.
  unfold podFailedWithReason in Hpod. rewrite Hpod.
  induction Hquiet as [| cs css Hcs _ IH]; [reflexivity |].
  cbn [containersFailure]. now rewrite containerFailure_quiet.
Qed.

Lemma containersFailure_deleted headless pod css :
  isPodBeingDeleted pod = true ->
  snd (containersFailure unmarshal headless pod css) = None
  \/ snd (containersFailure unmarshal headless pod css) = Some PhaseUnset.
Proof.
  intros Hdel. induction css as [| cs css IH]; [now left |].
  cbn [containersFailure].
  destruct (containerFailure unmarshal headless pod cs) as [r |] eqn:Hcs;
    [| exact IH].
  unfold containerFailure in Hcs. rewrite Hdel in Hcs. cbn [negb andb] in Hcs.
  destruct (match Waiting (State cs) with
            | Some w => _
            | None => None
            end) as [r' |] eqn:Hwait.
  - injection Hcs as <-.
    destruct (Waiting (State cs)) as [w |]; [| discriminate].
    destruct (_ || _); [| discriminate].
    injection Hwait as <-. now left.
  - destruct (match Terminated (State cs) with
              | Some t => Some t
              | None => Terminated (LastTerminationState cs)
              end) as [t |]; [| discriminate].
    destruct (negb (ExitCode t =? 0) && _).
    + injection Hcs as <-. now right.
    + destruct (TerminatedReason t =? "Error")%string; [discriminate |].
      rewrite andb_false_r in Hcs. discriminate.
Qed.

(** X9.  For a pod that is being deleted [extractFailure] never forces a
    phase of its own: it returns no phase, or the empty one, and leaves the
    decision to the deletion rules. *)
Theorem extractFailure_deleted_defers ws pod deleted :
  DeletionTimestamp pod = Some deleted ->
  snd (extractFailure unmarshal ws pod) = None
  \/ snd (extractFailure unmarshal ws pod) = Some PhaseUnset.
Proof.
  intros Hdel. unfold extractFailure.
  destruct (_ && _); [now left |].
  apply containersFailure_deleted. unfold isPodBeingDeleted. now rewrite Hdel.
Qed.

(** X10.  A container that was killed (reason "Error", exit code 137, and no
    termination message to go with a non-zero exit code) is passed over: the
    failure is the one of the remaining containers. *)
Theorem killed_container_skipped headless pod cs rest t :
  waitsOnPull cs = false ->
  terminationOf cs = Some t ->
  TerminatedMessage t = "" ->
  TerminatedReason t = "Error" ->
  ExitCode t = containerKilledExitCode ->
  containersFailure unmarshal headless pod (cs :: rest)
  = containersFailure unmarshal headless pod rest.
Proof.
  intros Hwait Hterm Hmsg Hreason Hexit.
  cbn [containersFailure].
  assert (Hnone : containerFailure unmarshal headless pod cs = None).
  { unfold containerFailure. unfold waitsOnPull in Hwait.
    unfold terminationOf in Hterm. rewrite Hterm.
    assert (Hw : match Waiting (State cs) with
                 | Some w =>
                     if (WaitingReason w =? "ImagePullBackOff")%string
                        || (WaitingReason w =? "ErrImagePull")%string
                     then Some ("cannot pull image: " ++ WaitingMessage w,
                                if isPodBeingDeleted pod then None
                                else Some WorkspacePhaseCreating)
                     else None
                 | None => None
                 end = None).
    { destruct (Waiting (State cs)); [now rewrite Hwait | reflexivity]. }
    rewrite Hw, Hmsg, Hreason, Hexit. cbn. now rewrite andb_false_r. }
  now rewrite Hnone.
Qed.


End ExtractorMore.

Lemma extractFailure_healthy_witness :
  let running :=
    {| ContainerName := "workspace"; Ready := true;
       State := {| Waiting := None; Running := Some tt; Terminated := None |};
       LastTerminationState := Sample.noState |} in
  extractFailure Json.Unmarshal
    (Sample.workspace WorkspacePhaseRunning [] false Sample.t0 None)
    (Sample.pod PodRunning None [] [running; running])
  = ("", None).
Proof.
  intros running. apply extractFailure_healthy.
  - reflexivity.
  - repeat constructor; discriminate.
Defined.

Lemma extractFailure_deleted_defers_witness :
  let pod := Sample.pod PodRunning (Some Sample.t0) []
               [Sample.terminated 1 "Error" "plain"] in
  extractFailure Json.Unmarshal
    (Sample.workspace WorkspacePhaseRunning [] false Sample.t0 None) pod
  = ("plain", Some PhaseUnset).
Proof.
  intros pod.
  destruct (extractFailure_deleted_defers Json.Unmarshal
              (Sample.workspace WorkspacePhaseRunning [] false Sample.t0 None)
              pod Sample.t0 eq_refl) as [Hnone | Hunset].
  - vm_compute in Hnone. discriminate.
  - vm_compute. reflexivity.
Defined.

Lemma killed_container_skipped_witness :
  let pod := Sample.pod PodRunning None [] [] in
  containersFailure Json.Unmarshal false pod
    [Sample.terminated 137 "Error" ""; Sample.terminated 2 "Error" ""]
  = ("container workspace ran with an error: exit code 2",
     Some WorkspacePhaseRunning).
Proof.
  intros pod.
  rewrite (killed_container_skipped Json.Unmarshal false pod
             (Sample.terminated 137 "Error" "")
             [Sample.terminated 2 "Error" ""]
             {| ExitCode := 137; TerminatedReason := "Error";
                TerminatedMessage := "" |});
    reflexivity.
Defined.


(** ** The log scanner, continued *)

Lemma failureText_nonempty (msg : LogMsg) :
  MsgMessage msg <> "" -> failureText msg <> "".
Proof.
  intros Hmsg. unfold failureText.
  destruct (MsgError msg =? "")%string; [exact Hmsg |].
  destruct (MsgMessage msg); [congruence | discriminate].
Qed.

Section LogScannerMore.

Variable unmarshal : Unmarshaler.

Lemma scanLines_some (lines : list string) (msg : LogMsg) (text : string) :
  scanLines unmarshal lines msg = Some text ->
  exists record, MsgMessage record <> "" /\ text = failureText record.
Proof.
  revert msg. induction lines as [| line rest IH]; intros msg;
    [discriminate |].
  cbn [scanLines]. destruct (unmarshal line msg) as [msg' ok].
  destruct ok; cbn [andb]; [| apply IH].
  destruct (String.eqb_spec (MsgMessage msg') "") as [_ | Hne];
    cbn [negb]; [apply IH |].
  intros [= <-]. now exists msg'.
Qed.

(** X12.  The failure text of a log is empty only for the empty log: what
    the scanner returns is the log itself or the text of a record with a
    message. *)
Theorem failure_text_empty_iff (logs : string) :
  extractFailureFromLogs unmarshal logs = "" <-> logs = "".
Proof.
  rewrite extractFailureFromLogs_lines. split.
  - destruct (scanLines unmarshal (rev (terminatedLines logs)) emptyMsg)
      as [text |] eqn:Hscan; [| auto].
    destruct (scanLines_some _ _ _ Hscan) as (record & Hmsg & ->).
    intros Hempty. now apply failureText_nonempty in Hmsg.
  - intros ->. reflexivity.
Qed.

(** X13.  A log without a line feed comes back as it is, whatever it holds
    and whatever the decoder does: no line of it is decoded. *)
Theorem no_line_feed_raw (logs : string) :
  noNewline logs -> extractFailureFromLogs unmarshal logs = logs.
Proof.
  intros Hlogs. rewrite extractFailureFromLogs_lines.
  unfold terminatedLines. now rewrite (splitLines_tail logs Hlogs).
Qed.

(** X14.  The last line wins: when the last of two or more lines that end
    in a line feed decodes to a record with a message, its text is the
    result, whatever the lines before it and the bytes after it are. *)
Theorem last_line_wins (first : string) (ls : list string)
    (l tail : string) (record : LogMsg) :
  Forall noNewline (first :: ls) -> noNewline l -> noNewline tail ->
  unmarshal (newline ++ l) emptyMsg = (record, true) ->
  MsgMessage record <> "" ->
  extractFailureFromLogs unmarshal
    (unlines (first :: ls) ++ l ++ newline ++ tail)
  = failureText record.
Proof.
  intros Hls Hl Htail Hdec Hmsg.
  rewrite extractFailureFromLogs_lines.
  replace (unlines (first :: ls) ++ l ++ newline ++ tail)
    with (unlines (List.app (first :: ls) [l]) ++ tail)
    by (rewrite unlines_snoc; now rewrite !app_assoc_s).
  rewrite terminatedLines_unlines;
    [| apply Forall_app; split; [exact Hls | now constructor] | exact Htail].
  rewrite scannedLines_snoc, rev_app_distr.
  cbn [rev List.app scanLines]. rewrite Hdec.
  apply String.eqb_neq in Hmsg. now rewrite Hmsg.
Qed.

(** X15.  The bytes after the last line feed do not decide which record is
    reported: two logs with the same lines either yield the same text or
    are both returned as they are. *)
Theorem tail_not_decoded (ls : list string) (tail tail' : string) :
  Forall noNewline ls -> noNewline tail -> noNewline tail' ->
  extractFailureFromLogs unmarshal (unlines ls ++ tail)
  = extractFailureFromLogs unmarshal (unlines ls ++ tail')
  \/ (extractFailureFromLogs unmarshal (unlines ls ++ tail)
      = unlines ls ++ tail
      /\ extractFailureFromLogs unmarshal (unlines ls ++ tail')
         = unlines ls ++ tail').
Proof.
  intros Hls Htail Htail'.
  rewrite !extractFailureFromLogs_lines.
  rewrite !terminatedLines_unlines by assumption.
  destruct (scanLines unmarshal (rev (scannedLines ls)) emptyMsg);
    [now left | now right].
Qed.

End LogScannerMore.

Lemma no_line_feed_raw_witness :
  extractFailureFromLogs Json.Unmarshal
    (Json.text "{'message':'boom','error':'x'}")
  = Json.text "{'message':'boom','error':'x'}".
Proof. apply no_line_feed_raw. reflexivity. Defined.

Lemma last_line_wins_witness :
  extractFailureFromLogs Json.Unmarshal
    (Json.text "{'message':'first'}|not json|{'message':'boom'}|trailing")
  = "boom".
Proof.
  apply (last_line_wins Json.Unmarshal (Json.text "{'message':'first'}")
           ["not json"] (Json.text "{'message':'boom'}") "trailing"
           {| MsgError := ""; MsgMessage := "boom" |}).
  - repeat constructor.
  - reflexivity.
  - reflexivity.
  - vm_compute. reflexivity.
  - discriminate.
Defined.

Lemma tail_not_decoded_witness :
  extractFailureFromLogs Json.Unmarshal
    (Json.text "{'message':'boom'}|{'message':'late'}")
  = extractFailureFromLogs Json.Unmarshal (Json.text "{'message':'boom'}|").
Proof.
  destruct (tail_not_decoded Json.Unmarshal [Json.text "{'message':'boom'}"]
              (Json.text "{'message':'late'}") "")
    as [Hsame | [Hraw _]].
  - repeat constructor.
  - reflexivity.
  - reflexivity.
  - exact Hsame.
  - vm_compute in Hraw. discriminate.
Defined.

(** ** Failures that reach the condition set *)

Section FailureCommitted.

Variable gitpodPodFinalizerName : string.
Variable unmarshal : Unmarshaler.



End FailureCommitted.


(** ** The timeout policy, continued *)

Lemma Since_monotone (now now' start : Time) :
  now <= now' -> Since now start <= Since now' start.
Proof. intros Hle. range_consts. lia. Qed.

Lemma isWorkspaceTimedOut_answers now ws pod timeouts :
  answers now (timeoutRules ws pod timeouts)
          (isWorkspaceTimedOut now ws pod timeouts).
Proof.
  rewrite timed_out_first_rule.
  pose proof (timeoutRules_length ws pod timeouts) as Hlen.
  destruct (timeoutRules ws pod timeouts) as [| [[s1 t1] a1] rest].
  - apply answers_nil.
  - destruct rest as [| [[s2 t2] a2] rest].
    + apply answers_one.
    + destruct rest; [| cbn in Hlen; lia].
      destruct (Z.leb_spec t1 (Since now s1)) as [Hle | Hlt].
      * now apply answers_decide.
      * apply answers_skip; [lia | apply answers_one].
Qed.

(** X17.  Timed out stays timed out: for the same workspace, pod and
    configuration, a timeout reported at one instant is reported at every
    later instant. *)
Theorem timed_out_later now now' ws pod timeouts :
  now <= now' ->
  isWorkspaceTimedOut now ws pod timeouts <> "" ->
  isWorkspaceTimedOut now' ws pod timeouts <> "".
Proof.
  intros Hle Hout.
  destruct (isWorkspaceTimedOut_answers now ws pod timeouts) as [Hiff _].
  destruct (isWorkspaceTimedOut_answers now' ws pod timeouts) as [Hiff' _].
  apply Hiff'. apply Hiff in Hout.
  apply Exists_exists in Hout as (rule & Hin & Hex).
  apply Exists_exists. exists rule. split; [exact Hin |].
  unfold exceeded in *.
  pose proof (Since_monotone now now' (fst (fst rule)) Hle). lia.
Qed.

Lemma timed_out_later_witness :
  let ws := Sample.workspace WorkspacePhaseCreating [] false Sample.t0 None in
  isWorkspaceTimedOut (Sample.t0 + 2 * Hour) ws
    (Sample.pod PodPending None [] []) Sample.timeouts <> "".
Proof.
  intros ws.
  apply (timed_out_later (Sample.t0 + Hour) (Sample.t0 + 2 * Hour)).
  - vm_compute. discriminate.
  - vm_compute. discriminate.
Defined.

(** X18.  The after-close rule: a Running workspace that is not headless,
    is below its maximum lifetime, has been active and is closed is measured
    from its last activity against [AfterClose]; its custom timeout plays no
    part. *)
Theorem closed_rule now ws pod timeouts last :
  Phase (WsStatus ws) = WorkspacePhaseRunning ->
  Headless (WsStatus ws) = false ->
  Since now (CreationTimestamp (Meta ws)) < MaxLifetime timeouts ->
  getWorkspaceActivity ws = Some last ->
  conditionPresentAndTrue (Conditions (WsStatus ws)) WorkspaceConditionClosed
  = true ->
  isWorkspaceTimedOut now ws pod timeouts
  = decide now last (AfterClose timeouts) activityClosed
  /\ forall custom,
       isWorkspaceTimedOut now (setCustomTimeout ws custom) pod timeouts
       = isWorkspaceTimedOut now ws pod timeouts.
Proof.
  intros Hphase Hheadless Hlt Hact Hclosed.
  assert (Heq : forall ws',
             Phase (WsStatus ws') = WorkspacePhaseRunning ->
             Headless (WsStatus ws') = false ->
             Since now (CreationTimestamp (Meta ws')) < MaxLifetime timeouts ->
             getWorkspaceActivity ws' = Some last ->
             conditionPresentAndTrue (Conditions (WsStatus ws'))
                                     WorkspaceConditionClosed = true ->
             isWorkspaceTimedOut now ws' pod timeouts
             = decide now last (AfterClose timeouts) activityClosed).
  { intros ws' H1 H2 H3 H4 H5.
    now rewrite (running_below_max_lifetime _ _ _ _ H1 H3), H2, H4, H5. }
  split; [now apply Heq |].
  intros custom. rewrite (Heq ws) by assumption.
  now apply Heq.
Qed.

(** X19.  The inactivity rule: a Running workspace that is not headless, is
    below its maximum lifetime, has been active and is not closed is
    measured from its last activity against its custom timeout when it has
    one, and against [RegularWorkspace] otherwise. *)
Theorem regular_rule now ws pod timeouts last :
  Phase (WsStatus ws) = WorkspacePhaseRunning ->
  Headless (WsStatus ws) = false ->
  Since now (CreationTimestamp (Meta ws)) < MaxLifetime timeouts ->
  getWorkspaceActivity ws = Some last ->
  conditionPresentAndTrue (Conditions (WsStatus ws)) WorkspaceConditionClosed
  = false ->
  isWorkspaceTimedOut now ws pod timeouts
  = decide now last (customOr ws (RegularWorkspace timeouts)) activityNone.
Proof.
  intros Hphase Hheadless Hlt Hact Hclosed.
  now rewrite (running_below_max_lifetime _ _ _ _ Hphase Hlt),
              Hheadless, Hact, Hclosed.
Qed.

(** X20.  Stopping: a workspace in phase Stopping times out exactly when
    its pod is being deleted and the time since the deletion instant has
    reached [ContentFinalization], if BackupComplete=True is recorded, or
    [Stopping], if it is not.  A pod that is not being deleted never times
    out, however old the workspace is. *)
Theorem stopping_rules now ws pod timeouts :
  Phase (WsStatus ws) = WorkspacePhaseStopping ->
  (isWorkspaceTimedOut now ws pod timeouts <> ""
   <-> exists deleted,
         DeletionTimestamp pod = Some deleted
         /\ (if conditionPresentAndTrue (Conditions (WsStatus ws))
                                        WorkspaceConditionBackupComplete
             then ContentFinalization timeouts
             else Stopping timeouts) <= Since now deleted).
Proof.
  intros Hphase. unfold isWorkspaceTimedOut. rewrite Hphase.
  destruct (DeletionTimestamp pod) as [deleted |].
  - destruct (conditionPresentAndTrue _ _); rewrite decide_nonempty_iff;
      (split; [intros Hle; now exists deleted | now intros (d & [= <-] & Hle)]).
  - split; [congruence | now intros (d & Hd & _)].
Qed.

(** X21.  Outside the Stopping phase the pod is not read, and a workspace
    that is Stopped, Unknown or without a phase never times out. *)
Theorem pod_read_only_when_stopping now ws pod pod' timeouts :
  Phase (WsStatus ws) <> WorkspacePhaseStopping ->
  isWorkspaceTimedOut now ws pod timeouts
  = isWorkspaceTimedOut now ws pod' timeouts
  /\ (Phase (WsStatus ws) = WorkspacePhaseStopped
      \/ Phase (WsStatus ws) = WorkspacePhaseUnknown
      \/ Phase (WsStatus ws) = PhaseUnset ->
      isWorkspaceTimedOut now ws pod timeouts = "").
Proof.
  intros Hphase. unfold isWorkspaceTimedOut.
  destruct (Phase (WsStatus ws)); try congruence; split; try reflexivity;
    intros [H | [H | H]]; discriminate.
Qed.

(** X22.  A maximum lifetime of zero or less ends every Running workspace
    that was not created in the future, at once and with the
    maximum-lifetime reason. *)
Theorem zero_max_lifetime now ws pod timeouts :
  Phase (WsStatus ws) = WorkspacePhaseRunning ->
  MaxLifetime timeouts <= 0 ->
  CreationTimestamp (Meta ws) <= now ->
  isWorkspaceTimedOut now ws pod timeouts
  = reasonText activityMaxLifetime (Since now (CreationTimestamp (Meta ws)))
               (MaxLifetime timeouts).
Proof.
  intros Hphase Hzero Hcreated. unfold isWorkspaceTimedOut. rewrite Hphase.
  assert (Hle : MaxLifetime timeouts
                <= Since now (CreationTimestamp (Meta ws)))
    by (range_consts; lia).
  now rewrite (decide_reason _ _ _ _ Hle).
Qed.

Lemma closed_rule_witness :
  let ws := Sample.workspace WorkspacePhaseRunning
              [Sample.cond WorkspaceConditionUserActivity ConditionTrue
                 (Sample.t0 + 10 * Minute) "" "";
               Sample.cond WorkspaceConditionClosed ConditionTrue
                 (Sample.t0 + 11 * Minute) "" ""]
              false Sample.t0 (Some Hour) in
  isWorkspaceTimedOut (Sample.t0 + 13 * Minute) ws
    (Sample.pod PodRunning None [] []) Sample.timeouts
  = "workspace timed out after after being closed (00h03m) took longer than 00h02m".
Proof.
  intros ws.
  destruct (closed_rule (Sample.t0 + 13 * Minute) ws
              (Sample.pod PodRunning None [] []) Sample.timeouts
              (Sample.t0 + 10 * Minute)) as [Heq _];
    [reflexivity | reflexivity | reflexivity | reflexivity | reflexivity |].
  rewrite Heq. vm_compute. reflexivity.
Defined.

Lemma regular_rule_witness :
  let ws := Sample.workspace WorkspacePhaseRunning
              [Sample.cond WorkspaceConditionUserActivity ConditionTrue
                 (Sample.t0 + 10 * Minute) "" ""]
              false Sample.t0 (Some (90 * Minute)) in
  let pod := Sample.pod PodRunning None [] [] in
  isWorkspaceTimedOut (Sample.t0 + 99 * Minute) ws pod Sample.timeouts = ""
  /\ isWorkspaceTimedOut (Sample.t0 + 100 * Minute) ws pod Sample.timeouts
     = "workspace timed out after period of inactivity (01h30m) took longer than 01h30m".
Proof.
  intros ws pod. split.
  - rewrite (regular_rule (Sample.t0 + 99 * Minute) ws pod Sample.timeouts
               (Sample.t0 + 10 * Minute));
      [vm_compute; reflexivity | reflexivity ..].
  - rewrite (regular_rule (Sample.t0 + 100 * Minute) ws pod Sample.timeouts
               (Sample.t0 + 10 * Minute));
      [vm_compute; reflexivity | reflexivity ..].
Defined.

Lemma stopping_rules_witness :
  let pod := Sample.pod PodRunning (Some (Sample.t0 + Hour)) [] [] in
  let backedUp :=
    Sample.workspace WorkspacePhaseStopping
      [Sample.cond WorkspaceConditionBackupComplete ConditionTrue
         (Sample.t0 + Hour) "" ""] false Sample.t0 None in
  isWorkspaceTimedOut (Sample.t0 + Hour + 56 * Minute) backedUp pod
                      Sample.timeouts <> ""
  /\ isWorkspaceTimedOut (Sample.t0 + 1000 * Hour) backedUp
                         (Sample.pod PodRunning None [] []) Sample.timeouts
     = "".
Proof.
  intros pod backedUp. split.
  - apply (stopping_rules (Sample.t0 + Hour + 56 * Minute) backedUp pod
             Sample.timeouts eq_refl).
    exists (Sample.t0 + Hour). split; [reflexivity |].
    vm_compute. discriminate.
  - destruct (String.eqb_spec
                (isWorkspaceTimedOut (Sample.t0 + 1000 * Hour) backedUp
                   (Sample.pod PodRunning None [] []) Sample.timeouts) "")
      as [Hnone | Hsome]; [exact Hnone |].
    apply (stopping_rules (Sample.t0 + 1000 * Hour) backedUp
             (Sample.pod PodRunning None [] []) Sample.timeouts eq_refl)
      in Hsome.
    destruct Hsome as (deleted & Hdeleted & _). discriminate.
Defined.

Lemma pod_read_only_when_stopping_witness :
  let ws := Sample.workspace WorkspacePhaseStopped [] false Sample.t0 None in
  isWorkspaceTimedOut (Sample.t0 + 1000 * Hour) ws
    (Sample.pod PodRunning (Some Sample.t0) [] []) Sample.timeouts = "".
Proof.
  intros ws.
  destruct (pod_read_only_when_stopping (Sample.t0 + 1000 * Hour) ws
              (Sample.pod PodRunning (Some Sample.t0) [] [])
              (Sample.pod PodRunning None [] []) Sample.timeouts)
    as [_ Hnever]; [discriminate |].
  apply Hnever. now left.
Defined.

Lemma zero_max_lifetime_witness :
  let unset := {| TotalStartup := 0; Initialization := 0;
                  RegularWorkspace := 0; MaxLifetime := 0;
                  HeadlessWorkspace := 0; AfterClose := 0;
                  ContentFinalization := 0; Stopping := 0 |} in
  isWorkspaceTimedOut Sample.t0
    (Sample.workspace WorkspacePhaseRunning [] false Sample.t0 None)
    (Sample.pod PodRunning None [] []) unset
  = "workspace timed out after maximum lifetime (00h00m) took longer than 00h00m".
Proof.
  intros unset.
  rewrite (zero_max_lifetime Sample.t0
             (Sample.workspace WorkspacePhaseRunning [] false Sample.t0 None)
             (Sample.pod PodRunning None [] []) unset eq_refl).
  - vm_compute. reflexivity.
  - vm_compute. discriminate.
  - vm_compute. discriminate.
Defined.

(** X23.  The activity of a workspace is the transition time of the first
    UserActivity condition in its condition set, whatever the status of
    that condition is. *)
Theorem activity_is_first_condition (ws : Workspace) (last : Time) :
  getWorkspaceActivity ws = Some last
  <-> exists c more,
        conditionsOfType WorkspaceConditionUserActivity
                         (Conditions (WsStatus ws)) = c :: more
        /\ LastTransitionTime c = last.
Proof.
  unfold getWorkspaceActivity, conditionsOfType.
  induction (Conditions (WsStatus ws)) as [| x rest IH]; cbn.
  - split; [discriminate | intros (c & more & H & _); discriminate].
  - destruct (Type_ x =? WorkspaceConditionUserActivity)%string.
    + split.
      * intros [= <-]. eexists x, _. split; reflexivity.
      * intros (c & more & [= <- _] & <-). reflexivity.
    + exact IH.
Qed.

(** X24.  What [formatDuration] writes: for a duration from zero up to a
    minute below the largest, hours [h] and minutes [m] below sixty, each
    with at least two digits, that are within half a minute of the
    duration. *)
Theorem formatDuration_fields (d : Duration) :
  0 <= d <= maxDuration - Minute ->
  exists h m,
    formatDuration d = Str.pad2 h ++ "h" ++ Str.pad2 m ++ "m"
    /\ 0 <= h /\ 0 <= m < 60
    /\ - (30 * Second) < (h * 60 + m) * Minute - d <= 30 * Second.
Proof.
  intros Hd. rewrite (formatDuration_hoursMinutes d Hd). unfold hoursMinutes.
  set (q := (d + 30 * Second) / Minute).
  exists (q / 60), (q mod 60). split; [reflexivity |].
  assert (Hq0 : 0 <= q).
  { subst q. apply Z.div_pos; [unfold Second; lia | reflexivity]. }
  pose proof (Z.mod_pos_bound q 60 eq_refl) as Hm.
  assert (Hq : q = 60 * (q / 60) + q mod 60)
    by (apply Z.div_mod; discriminate).
  assert (Hdm : d + 30 * Second = Minute * q + (d + 30 * Second) mod Minute)
    by (subst q; apply Z.div_mod; discriminate).
  pose proof (Z.mod_pos_bound (d + 30 * Second) Minute eq_refl) as Hr.
  split; [apply Z.div_pos; lia |]. split; [exact Hm |].
  replace (q / 60 * 60 + q mod 60) with q by lia.
  unfold Minute, Second in *. lia.
Qed.

Lemma formatDuration_fields_witness :
  formatDuration (89 * Minute + 30 * Second) = "01h30m".
Proof.
  destruct (formatDuration_fields (89 * Minute + 30 * Second))
    as (h & m & Htext & _).
  - vm_compute. split; discriminate.
  - vm_compute. reflexivity.
Defined.

(** ** The timeout reconciler, continued *)

Section TimeoutReconcilerMore.

Context {WorkspaceActivity : Type}.
Variable workspaceTimedOut :
  Time -> Workspace -> WorkspaceTimeoutConfiguration -> WorkspaceActivity
  -> string * option Error.
Context {C : Type} `{Client C}.

(** X25.  A failed fetch ends the pass: nothing is written and no requeue
    is asked for; a workspace that is not found is no error, any other
    failure of the fetch is returned as the error of the pass. *)
Theorem reconcile_fetch_error (r : TimeoutReconciler WorkspaceActivity) now
    (cluster : C) req err :
  Get cluster req = inr err ->
  Reconcile workspaceTimedOut r now cluster req
  = (emptyResult,
     match err with ErrNotFound => None | ErrOther _ => Some err end,
     cluster).
Proof.
  intros Hget. unfold Reconcile. rewrite Hget. now destruct err.
Qed.

(** X26.  No timeout, no write: when the check reports no timeout or fails,
    the cluster is left alone, the error of the check is the error of the
    pass, and the pass asks to be run again after the reconcile interval. *)
Theorem reconcile_without_timeout (r : TimeoutReconciler WorkspaceActivity)
    now (cluster : C) req ws reason err :
  Get cluster req = inl ws ->
  workspaceTimedOut now ws (Timeouts (Config r)) (activity_ r)
  = (reason, err) ->
  err <> None \/ reason = "" ->
  Reconcile workspaceTimedOut r now cluster req
  = ({| Requeue := false; RequeueAfter := reconcileInterval r |}, err,
     cluster).
Proof.
  intros Hget Hcheck Hcase. unfold Reconcile. rewrite Hget, Hcheck.
  destruct err as [e |]; [reflexivity |].
  destruct Hcase as [Herr | ->]; [congruence | reflexivity].
Qed.

(** X27.  A timeout is recorded once: when the check reports a reason and
    the workspace does not carry Timeout=True yet, the workspace handed to
    the status update carries Timeout=True with the reason as its message,
    its conditions of the other types are the fetched ones, and the outcome
    of the update is the outcome of the pass. *)
Theorem reconcile_records_timeout (r : TimeoutReconciler WorkspaceActivity)
    now (cluster : C) req ws reason :
  Get cluster req = inl ws ->
  workspaceTimedOut now ws (Timeouts (Config r)) (activity_ r)
  = (reason, None) ->
  reason <> "" ->
  conditionPresentAndTrue (Conditions (WsStatus ws)) WorkspaceConditionTimeout
  = false ->
  exists ws',
    Reconcile workspaceTimedOut r now cluster req
    = ({| Requeue := false; RequeueAfter := reconcileInterval r |},
       snd (StatusUpdate cluster ws'), fst (StatusUpdate cluster ws'))
    /\ conditionPresentAndTrue (Conditions (WsStatus ws'))
                               WorkspaceConditionTimeout = true
    /\ (exists c more,
          conditionsOfType WorkspaceConditionTimeout (Conditions (WsStatus ws'))
          = c :: more
          /\ Message c = reason)
    /\ (forall tpe, tpe <> WorkspaceConditionTimeout ->
          conditionsOfType tpe (Conditions (WsStatus ws'))
          = conditionsOfType tpe (Conditions (WsStatus ws)))
    /\ Meta ws' = Meta ws /\ Spec ws' = Spec ws
    /\ Phase (WsStatus ws') = Phase (WsStatus ws).
Proof.
  intros Hget Hcheck Hreason Hfresh.
  exists (setConditions ws
            (AddUniqueCondition (Conditions (WsStatus ws))
               (conditionTrue WorkspaceConditionTimeout now reason))).
  split; [| split; [| split; [| split]]].
  - unfold Reconcile. rewrite Hget, Hcheck.
    apply String.eqb_neq in Hreason. rewrite Hreason, Hfresh.
    now destruct (StatusUpdate cluster _).
  - apply (AddUniqueCondition_present _
             (conditionTrue WorkspaceConditionTimeout now reason)).
    reflexivity.
  - destruct (AddUniqueCondition_first (Conditions (WsStatus ws))
                (conditionTrue WorkspaceConditionTimeout now reason))
      as (c & more & Hfirst & _ & Hm).
    now exists c, more.
  - intros tpe Hne. cbn [setConditions setStatus WsStatus Conditions].
    apply conditionsOfType_add_other. cbn. congruence.
  - repeat split.
Qed.

End TimeoutReconcilerMore.

Lemma reconcile_fetch_error_witness :
  let r := NewTimeoutReconciler
             {| Timeouts := Sample.timeouts;
                HeartbeatInterval := 4 * Minute |} tt in
  let empty := {| stored := []; getFault := None; updateFault := None |} in
  Reconcile Sample.timedOut r Sample.t0 empty Sample.request
  = (emptyResult, None, empty).
Proof.
  intros r empty.
  apply (reconcile_fetch_error Sample.timedOut r Sample.t0 empty
           Sample.request ErrNotFound).
  reflexivity.
Defined.

Lemma reconcile_without_timeout_witness :
  let r := NewTimeoutReconciler
             {| Timeouts := Sample.timeouts;
                HeartbeatInterval := 4 * Minute |} tt in
  let ws := Sample.workspace WorkspacePhasePending [] false Sample.t0 None in
  Reconcile Sample.timedOut r (Sample.t0 + Minute) (Sample.cluster ws)
            Sample.request
  = ({| Requeue := false; RequeueAfter := 2 * Minute |}, None,
     Sample.cluster ws).
Proof.
  intros r ws.
  apply (reconcile_without_timeout Sample.timedOut r (Sample.t0 + Minute)
           (Sample.cluster ws) Sample.request ws "" None).
  - reflexivity.
  - vm_compute. reflexivity.
  - now right.
Defined.

Lemma reconcile_records_timeout_witness :
  let r := NewTimeoutReconciler
             {| Timeouts := Sample.timeouts;
                HeartbeatInterval := 4 * Minute |} tt in
  let ws := Sample.workspace WorkspacePhasePending [] false Sample.t0 None in
  exists ws',
    Reconcile Sample.timedOut r (Sample.t0 + Hour) (Sample.cluster ws)
              Sample.request
    = ({| Requeue := false; RequeueAfter := 2 * Minute |},
       snd (StatusUpdate (Sample.cluster ws) ws'),
       fst (StatusUpdate (Sample.cluster ws) ws'))
    /\ conditionPresentAndTrue (Conditions (WsStatus ws'))
                               WorkspaceConditionTimeout = true
    /\ conditionsOfType WorkspaceConditionDeployed (Conditions (WsStatus ws'))
       = [].
Proof.
  intros r ws.
  assert (Hget : Get (Sample.cluster ws) Sample.request = inl ws)
    by reflexivity.
  assert (Hcheck :
            Sample.timedOut (Sample.t0 + Hour) ws (Timeouts (Config r))
                            (activity_ r)
            = ("workspace timed out after initialization (01h00m) took longer than 00h30m",
               None))
    by (vm_compute; reflexivity).
  assert (Hreason :
            "workspace timed out after initialization (01h00m) took longer than 00h30m"
            <> "") by discriminate.
  destruct (reconcile_records_timeout Sample.timedOut r (Sample.t0 + Hour)
              (Sample.cluster ws) Sample.request ws _ Hget Hcheck Hreason
              eq_refl)
    as (ws' & Hpass & Hlatch & _ & Hothers & _).
  exists ws'. split; [exact Hpass |]. split; [exact Hlatch |].
  rewrite (Hothers WorkspaceConditionDeployed) by discriminate.
  reflexivity.
Defined.

(** ** The loop of the scanner ends *)

(** X28.  The loop of [extractFailureFromLogs] ends: with any fuel above
    the length of the log it leaves the loop by a return or by its
    condition, with the result that the bound of [extractFailureFromLogs]
    gives, for every log and every decoder. *)
Theorem scan_terminates (unmarshal : Unmarshaler) (logs : string)
    (fuel : nat) :
  (String.length logs < fuel)%nat ->
  scanLog unmarshal fuel logs (Str.LastIndex logs newline) emptyMsg
  <> OutOfFuel
  /\ scanLog unmarshal fuel logs (Str.LastIndex logs newline) emptyMsg
     = scanLog unmarshal (S (String.length logs)) logs
               (Str.LastIndex logs newline) emptyMsg.
Proof.
  intros Hfuel.
  assert (Hlines :
            scanLog unmarshal fuel logs (Str.LastIndex logs newline) emptyMsg
            = scanResult (scanLines unmarshal (rev (terminatedLines logs))
                                    emptyMsg)).
  { unfold terminatedLines.
    destruct (splitLines_spec logs) as (Heq & Hls & Htail).
    destruct (splitLines logs) as [ls tail]. cbn [fst snd] in *.
    destruct ls as [| l0 ls0 _] using rev_ind.
    - cbn [unlines] in Heq. change ("" ++ tail) with tail in Heq.
      subst logs. rewrite (LastIndex_none tail Htail).
      destruct fuel as [| fuel]; [lia |].
      now rewrite scanLog_done by lia.
    - apply Forall_app in Hls as [Hls0 Hl0].
      assert (Hl : noNewline l0) by now inversion Hl0.
      rewrite unlines_snoc in Heq.
      assert (Hlogs : logs = unlines ls0 ++ l0 ++ newline ++ tail)
        by (rewrite Heq; now rewrite !app_assoc_s).
      assert (Hlast : Str.LastIndex logs newline
                      = Str.len (unlines ls0 ++ l0)).
      { rewrite Hlogs, <- (app_assoc_s (unlines ls0) l0).
        now apply LastIndex_last. }
      rewrite Hlast. rewrite Hlogs at 1.
      apply scanLog_lines; [exact Hls0 | exact Hl |].
      rewrite Hlogs, !length_app_s in Hfuel.
      pose proof (length_unlines ls0). cbn in Hfuel. lia. }
  split.
  - rewrite Hlines. now destruct (scanLines _ _ _).
  - now rewrite Hlines, scanLog_text.
Qed.

Lemma scan_terminates_witness :
  scanLog Json.Unmarshal 100
          (Json.text "{'message':'first'}|not json|")
          (Str.LastIndex (Json.text "{'message':'first'}|not json|") newline)
          emptyMsg
  = Returned "first".
Proof.
  destruct (scan_terminates Json.Unmarshal
              (Json.text "{'message':'first'}|not json|") 100) as [_ Hsame].
  - vm_compute. lia.
  - rewrite Hsame. vm_compute. reflexivity.
Defined.

(** ** A failed image pull *)

(** X29.  A failed image pull on a pending pod: when the first container of
    a pod that is Pending and not being deleted waits with reason
    ImagePullBackOff or ErrImagePull, the failure text names the pull with
    the message of the container, the workspace carries Failed=True after
    the pass and is in phase Creating. *)
Theorem image_pull_failure (gitpodPodFinalizerName : string)
    (unmarshal : Unmarshaler) now ws pod cs rest w :
  DeletionTimestamp pod = None ->
  PodPhase_ (PodStatus_ pod) = PodPending ->
  ContainerStatuses (PodStatus_ pod) = cs :: rest ->
  Waiting (State cs) = Some w ->
  waitsOnPull cs = true ->
  let ws' := updateWorkspaceStatus gitpodPodFinalizerName unmarshal now ws
                                   [pod] in
  extractFailure unmarshal ws pod
  = ("cannot pull image: " ++ WaitingMessage w, Some WorkspacePhaseCreating)
  /\ Phase (WsStatus ws') = WorkspacePhaseCreating
  /\ conditionPresentAndTrue (Conditions (WsStatus ws'))
                             WorkspaceConditionFailed = true.
Proof.
  intros Hlive Hpending Hcss Hwait Hpull ws'. subst ws'.
  unfold waitsOnPull in Hpull. rewrite Hwait in Hpull.
  assert (Hfail : extractFailure unmarshal ws pod
                  = ("cannot pull image: " ++ WaitingMessage w,
                     Some WorkspacePhaseCreating)).
  { unfold extractFailure. rewrite Hpending, Hcss. cbn [andb containersFailure].
    unfold containerFailure, isPodBeingDeleted.
    now rewrite Hwait, Hpull, Hlive. }
  split; [exact Hfail |]. split.
  - rewrite (live_pod_phase _ _ now ws pod Hlive), Hpending, Hcss.
    cbn [existsb]. rewrite Hwait.
    assert (Hcreating :
              (WaitingReason w =? "ContainerCreating")%string
              || (WaitingReason w =? "ImagePullBackOff")%string
              || (WaitingReason w =? "ErrImagePull")%string = true).
    { rewrite <- orb_assoc, Hpull. apply orb_true_r. }
    now rewrite Hcreating.
  - rewrite single_pod_failure_committed, Hfail. cbn. apply orb_true_r.
Qed.

Lemma image_pull_failure_witness :
  let cs := {| ContainerName := "workspace"; Ready := false;
               State := {| Waiting :=
                             Some {| WaitingReason := "ErrImagePull";
                                     WaitingMessage := "manifest unknown" |};
                           Running := None; Terminated := None |};
               LastTerminationState := Sample.noState |} in
  let pod := Sample.pod PodPending None [] [cs] in
  let ws := Sample.workspace WorkspacePhasePending [] false Sample.t0 None in
  let ws' := updateWorkspaceStatus Sample.finalizer Json.Unmarshal
               (Sample.t0 + Minute) ws [pod] in
  Phase (WsStatus ws') = WorkspacePhaseCreating
  /\ conditionsOfType WorkspaceConditionFailed (Conditions (WsStatus ws'))
     = [conditionTrue WorkspaceConditionFailed (Sample.t0 + Minute)
          "cannot pull image: manifest unknown"].
Proof.
  intros cs pod ws ws'.
  destruct (image_pull_failure Sample.finalizer Json.Unmarshal
              (Sample.t0 + Minute) ws pod cs []
              {| WaitingReason := "ErrImagePull";
                 WaitingMessage := "manifest unknown" |}
              eq_refl eq_refl eq_refl eq_refl eq_refl)
    as (_ & Hphase & _).
  split; [exact Hphase |]. vm_compute. reflexivity.
Defined.
